(** * Occupancy detection with K nearest neighbours

    A shallow embedding of the notebook [Occupancy Detection.ipynb]: the
    classifier [KNN], the cell that sweeps the training error over K, the
    plot of a query with its nearest neighbours and the cells that cut the
    two features out of the loaded data.

    - feature values are float64, here Rocq's primitive binary64 floats, so a
      concrete query evaluates to the very distances NumPy computes;
    - labels are the integers of the data file's last column (0 and 1 there;
      [KNN] itself accepts any labels), here [Z];
    - a Python exception is a value [Raise e] of the error monad [result];
    - [np.argsort] is a parameter of the development: [np.argsort] promises a
      permutation of the indices that puts the distances in ascending order
      and nothing about the order of equal distances, and theorems assume no
      more than they say.  [insertion_argsort] is the instance used to run
      concrete inputs. *)

From Stdlib Require Import String.
From Stdlib Require Import List ZArith QArith Lia Bool Permutation Sorted.
From Stdlib Require Import PrimFloat.
Import ListNotations.

Close Scope Q_scope.
Open Scope nat_scope.

(** ** Exceptions *)

Inductive exn : Set :=
| ValueError   (* shapes that do not broadcast, argmax of an empty array *)
| IndexError.  (* an index out of bounds *)

Inductive result (A : Type) : Type :=
| Ok (a : A)
| Raise (e : exn).

Arguments Ok {A} a.
Arguments Raise {A} e.

Definition bind {A B : Type} (c : result A) (k : A -> result B) : result B :=
  match c with
  | Ok a => k a
  | Raise e => Raise e
  end.

Notation "x <- c ;; k" := (bind c (fun x => k))
  (at level 61, c at next level, right associativity).

Fixpoint mapM {A B : Type} (f : A -> result B) (l : list A) : result (list B) :=
  match l with
  | [] => Ok []
  | a :: l' => b <- f a ;; bs <- mapM f l' ;; Ok (b :: bs)
  end.

(** ** The NumPy operations the notebook calls *)

(** A two-dimensional float64 array of shape [(nrows, ncols)]. *)
Record ndarray2 : Type := mk_ndarray2 {
  ncols : nat;
  rows : list (list float)
}.

Definition nrows (x : ndarray2) : nat := length (rows x).

(** Every row has [ncols] entries, as in any NumPy array. *)
Definition rectangular (x : ndarray2) : Prop :=
  Forall (fun r => length r = ncols x) (rows x).

(** [l[n]] for an index [n >= 0]. *)
Definition getitem {A : Type} (l : list A) (n : nat) : result A :=
  match nth_error l n with
  | Some a => Ok a
  | None => Raise IndexError
  end.

(** [l[idx]] for an array of indices [idx]. *)
Definition take {A : Type} (l : list A) (idx : list nat) : result (list A) :=
  mapM (getitem l) idx.

(** [l[n] = v]. *)
Fixpoint replace_nth {A : Type} (l : list A) (n : nat) (v : A) : list A :=
  match l, n with
  | [], _ => []
  | _ :: l', O => v :: l'
  | a :: l', S n' => a :: replace_nth l' n' v
  end.

Definition setitem {A : Type} (l : list A) (n : nat) (v : A) : result (list A) :=
  if n <? length l then Ok (replace_nth l n v) else Raise IndexError.

(** The end of the slice [l[0:K]] of an array of [len] entries: a negative
    [K] counts from the end, and both ends are clamped to the array. *)
Definition slice_stop (len : nat) (K : Z) : nat :=
  if (K <? 0)%Z then Z.to_nat (Z.of_nat len + K) else Nat.min (Z.to_nat K) len.

Definition slice0 {A : Type} (l : list A) (K : Z) : list A :=
  firstn (slice_stop (length l) K) l.

(** [x - x_q] for [x] of shape [(N, D)] and [x_q] of shape [(D',)]: the
    shapes broadcast when [D = D'] or one of them is 1. *)
Definition broadcast_sub (x : ndarray2) (x_q : list float) : result ndarray2 :=
  let D := ncols x in
  let D' := length x_q in
  if D =? D' then
    Ok (mk_ndarray2 D
          (map (fun r => map (fun p => PrimFloat.sub (fst p) (snd p)) (combine r x_q))
               (rows x)))
  else if D' =? 1 then
    Ok (mk_ndarray2 D
          (map (fun r => map (fun a => PrimFloat.sub a (hd 0%float x_q)) r) (rows x)))
  else if D =? 1 then
    Ok (mk_ndarray2 D'
          (map (fun r => map (fun q => PrimFloat.sub (hd 0%float r) q) x_q) (rows x)))
  else Raise ValueError.

(** [a**2], elementwise. *)
Definition square (x : ndarray2) : ndarray2 :=
  mk_ndarray2 (ncols x) (map (map (fun a => PrimFloat.mul a a)) (rows x)).

(** [np.sum(x, axis=1)]: each row added up from left to right (the order
    NumPy follows for rows of fewer than eight entries). *)
Definition sum_row (r : list float) : float :=
  match r with
  | [] => 0%float
  | a :: r' => fold_left PrimFloat.add r' a
  end.

Definition sum_axis1 (x : ndarray2) : list float := map sum_row (rows x).

(** [d = np.sqrt(np.sum((x - x_q)**2, axis=1))] *)
Definition distances (x : ndarray2) (x_q : list float) : result (list float) :=
  diff <- broadcast_sub x x_q ;;
  Ok (map PrimFloat.sqrt (sum_axis1 (square diff))).

(** The order NumPy sorts float64 by: [<], with NaN after everything. *)
Definition np_lt (a b : float) : bool :=
  PrimFloat.ltb a b || (PrimFloat.is_nan b && negb (PrimFloat.is_nan a)).

Definition dist_at (d : list float) (n : nat) : float := nth n d 0%float.

(** What [np.argsort(d)] promises: a permutation of the indices of [d] ... *)
Definition argsort_permutes (argsort : list float -> list nat) : Prop :=
  forall d, Permutation (argsort d) (seq 0 (length d)).

(** ... along which no entry is smaller than an earlier one. *)
Fixpoint ascending (d : list float) (i : list nat) : bool :=
  match i with
  | [] => true
  | a :: i' =>
      forallb (fun b => negb (np_lt (dist_at d b) (dist_at d a))) i' && ascending d i'
  end.

(** A stable insertion sort of the indices (what NumPy's default sort runs
    on arrays of at most sixteen entries). *)
Fixpoint insert_index (d : list float) (j : nat) (i : list nat) : list nat :=
  match i with
  | [] => [j]
  | e :: i' =>
      if np_lt (dist_at d j) (dist_at d e) then j :: i else e :: insert_index d j i'
  end.

Definition insertion_argsort (d : list float) : list nat :=
  fold_left (fun i j => insert_index d j i) (seq 0 (length d)) [].

(** [np.unique(y)]: [y] sorted, then every entry equal to the one before it
    dropped. *)
Fixpoint insert_label (a : Z) (l : list Z) : list Z :=
  match l with
  | [] => [a]
  | b :: l' => if (a <=? b)%Z then a :: l else b :: insert_label a l'
  end.

Definition sort_labels (y : list Z) : list Z := fold_right insert_label [] y.

Fixpoint drop_repeats (prev : Z) (l : list Z) : list Z :=
  match l with
  | [] => []
  | b :: l' => if (b =? prev)%Z then drop_repeats prev l' else b :: drop_repeats b l'
  end.

Definition unique (y : list Z) : list Z :=
  match sort_labels y with
  | [] => []
  | a :: l => a :: drop_repeats a l
  end.

(** [np.sum(nb == lbl)] *)
Definition count_label (nb : list Z) (lbl : Z) : nat := count_occ Z.eq_dec nb lbl.

(** [np.argmax(c)]: the first index of the largest entry. *)
Fixpoint first_max (c : list nat) : nat :=
  match c with
  | [] => 0
  | v :: c' => if list_max c' <=? v then 0 else S (first_max c')
  end.

Definition argmax (c : list nat) : result nat :=
  match c with
  | [] => Raise ValueError
  | _ :: _ => Ok (first_max c)
  end.

(** [np.arange(start, stop, step)] for a positive [step]. *)
Definition arange (start stop step : Z) : list Z :=
  map (fun k => (start + step * Z.of_nat k)%Z)
      (seq 0 (Z.to_nat ((stop - start + step - 1) / step))).

(** The float64 [a / b] of two counts, kept as the exact quotient (the float
    is that quotient rounded; 0 and 1 are floats, so rounding keeps a
    quotient of [[0, 1]] inside it).  Division by zero is no exception in
    NumPy: it gives [nan] or [inf]. *)
Inductive quotient : Type :=
| Quotient (q : Q)
| Inf
| NaN.

Definition true_divide (a b : nat) : quotient :=
  match b with
  | O => if a =? 0 then NaN else Inf
  | S _ => Quotient (Z.of_nat a # Pos.of_nat b)
  end.

(** [np.sum(y != y_prediction)] for two arrays of one length (in the cell
    both have [N] entries). *)
Definition count_mismatches (y y_prediction : list Z) : nat :=
  length (filter (fun p => negb (fst p =? snd p)%Z) (combine y y_prediction)).

(** ** The classifier *)

Section Classifier.

Variable argsort : list float -> list nat.

(** The labels of the [K] nearest neighbours, [y[i[0:K]]]. *)
Definition neighbours (y : list Z) (d : list float) (K : Z) : result (list Z) :=
  take y (slice0 (argsort d) K).

(** [def KNN(x, y, x_q, K=3)] *)
Definition KNN (x : ndarray2) (y : list Z) (x_q : list float) (K : Z) : result Z :=
  let target_labels := unique y in
  d <- distances x x_q ;;
  let i := argsort d in
  target_labels_counts <-
    mapM (fun lbl => nb <- take y (slice0 i K) ;; Ok (count_label nb lbl))
         target_labels ;;
  l <- argmax target_labels_counts ;;
  getitem target_labels l.

End Classifier.

Definition KNN_default argsort x y x_q : result Z := KNN argsort x y x_q 3.


(** ** The notebook's global variables and the training-error cell *)

Inductive line : Type :=
| Header                          (* K   Training Error *)
| Row (K : Z) (err : quotient).

Record notebook : Type := mk_notebook {
  x_training_selected : ndarray2;
  y_training : list Z;
  x_q : list float;
  N : nat;
  K : Z;
  n : nat;
  y_prediction : list Z;
  classification_error : quotient;
  stdout : list line
}.

Definition set_x_q v s :=
  mk_notebook (x_training_selected s) (y_training s) v (N s) (K s) (n s)
              (y_prediction s) (classification_error s) (stdout s).
Definition set_N v s :=
  mk_notebook (x_training_selected s) (y_training s) (x_q s) v (K s) (n s)
              (y_prediction s) (classification_error s) (stdout s).
Definition set_K v s :=
  mk_notebook (x_training_selected s) (y_training s) (x_q s) (N s) v (n s)
              (y_prediction s) (classification_error s) (stdout s).
Definition set_n v s :=
  mk_notebook (x_training_selected s) (y_training s) (x_q s) (N s) (K s) v
              (y_prediction s) (classification_error s) (stdout s).
Definition set_y_prediction v s :=
  mk_notebook (x_training_selected s) (y_training s) (x_q s) (N s) (K s) (n s)
              v (classification_error s) (stdout s).
Definition set_classification_error v s :=
  mk_notebook (x_training_selected s) (y_training s) (x_q s) (N s) (K s) (n s)
              (y_prediction s) v (stdout s).
Definition print v s :=
  mk_notebook (x_training_selected s) (y_training s) (x_q s) (N s) (K s) (n s)
              (y_prediction s) (classification_error s) (stdout s ++ [v]).

(** A [for] loop over [l] whose body may raise. *)
Fixpoint for_each {A S : Type} (body : A -> S -> result S) (l : list A) (s : S)
  : result S :=
  match l with
  | [] => Ok s
  | a :: l' => s' <- body a s ;; for_each body l' s'
  end.

Section TrainingError.

Variable argsort : list float -> list nat.

(** The body of [for n in np.arange(N)]. *)
Definition predict_example (i : nat) (s : notebook) : result notebook :=
  let s := set_n i s in
  row <- getitem (rows (x_training_selected s)) (n s) ;;
  let s := set_x_q row s in
  label <- KNN argsort (x_training_selected s) (y_training s) (x_q s) (K s) ;;
  y_pred <- setitem (y_prediction s) (n s) label ;;
  Ok (set_y_prediction y_pred s).

(** The body of [for K in np.arange(1, 34, 2)]. *)
Definition error_for_K (k : Z) (s : notebook) : result notebook :=
  let s := set_K k s in
  let s := set_y_prediction (repeat 0%Z (N s)) s in
  s <- for_each predict_example (seq 0 (N s)) s ;;
  let s := set_classification_error
             (true_divide (count_mismatches (y_training s) (y_prediction s)) (N s)) s in
  Ok (print (Row (K s) (classification_error s)) s).

(** The cell. *)
Definition training_error_cell (s : notebook) : result notebook :=
  let s := set_N (length (y_training s)) s in
  let s := print Header s in
  for_each error_for_K (arange 1 34 2) s.

End TrainingError.

(** The label that collects the votes [f]: the entry of [labels] at the
    first largest count. *)
Definition winner (f : Z -> nat) (labels : list Z) : Z :=
  nth (first_max (map f labels)) labels 0%Z.

(** ** What the claims speak of *)

(** The label predicted for example [i] of the dataset, the query being the
    example's own feature vector. *)
Definition prediction (argsort : list float -> list nat) (x : ndarray2) (y : list Z)
  (k : Z) (i : nat) : result Z :=
  row <- getitem (rows x) i ;; KNN argsort x y row k.

(** The number of examples whose predicted label differs from their label. *)
Definition misclassified (y predicted : list Z) : nat :=
  length (filter (fun i => negb (nth i y 0 =? nth i predicted 0)%Z) (seq 0 (length y))).

(** The global variables a run of the cell leaves as they were. *)
Definition same_data (s s' : notebook) : Prop :=
  x_training_selected s' = x_training_selected s /\
  y_training s' = y_training s.

(** Example [i] is strictly nearer to itself than to every example that
    carries another label, and [argsort] puts its distances in order. *)
Definition own_label_nearest (argsort : list float -> list nat) (x : ndarray2)
  (y : list Z) (i : nat) : Prop :=
  forall d, distances x (nth i (rows x) []) = Ok d ->
    ascending d (argsort d) = true /\
    forall m, m < length y -> nth m y 0%Z <> nth i y 0%Z ->
      PrimFloat.ltb (dist_at d i) (dist_at d m) = true.

(** What the inner loop leaves untouched. *)
Definition inner_frame (s s' : notebook) : Prop :=
  same_data s s' /\ N s' = N s /\ K s' = K s /\
  classification_error s' = classification_error s /\ stdout s' = stdout s.

(** Two runs end alike: both return, with results related by [R], or both
    raise the same exception. *)
Definition same_outcome {A : Type} (R : A -> A -> Prop) (r1 r2 : result A) : Prop :=
  match r1, r2 with
  | Ok a1, Ok a2 => R a1 a2
  | Raise e1, Raise e2 => e1 = e2
  | _, _ => False
  end.

(** Two notebooks hold the same data and the same values in the variables the
    cell computes. *)
Definition same_results (s1 s2 : notebook) : Prop :=
  x_training_selected s1 = x_training_selected s2 /\
  y_training s1 = y_training s2 /\
  N s1 = N s2 /\ K s1 = K s2 /\
  y_prediction s1 = y_prediction s2 /\
  classification_error s1 = classification_error s2.

(** What a run printed: [s'] has the output of [s] and [out] after it. *)
Definition printed (s s' : notebook) (out : list line) : Prop :=
  stdout s' = stdout s ++ out.

(** ** Small datasets to run the code on *)

(** The reference points [(0,0) -> 0] and [(10,10) -> 1]. *)
Definition two_x : ndarray2 := mk_ndarray2 2 [[0; 0]; [10; 10]]%float.
Definition two_y : list Z := [0; 1]%Z.

(** Four points on a line, labels alternating. *)
Definition line_x : ndarray2 :=
  mk_ndarray2 2 [[0; 0]; [1; 1]; [10; 10]; [11; 11]]%float.
Definition line_y : list Z := [1; 0; 1; 0]%Z.

(** Two examples of label 0 and one of label 1. *)
Definition three_x : ndarray2 := mk_ndarray2 2 [[0; 0]; [1; 1]; [10; 10]]%float.
Definition three_y : list Z := [0; 0; 1]%Z.

(** Two examples with the same features and different labels. *)
Definition twin_x : ndarray2 := mk_ndarray2 2 [[5; 5]; [5; 5]]%float.
Definition twin_y : list Z := [0; 1]%Z.

(** A notebook in which the cells above the training-error cell have run:
    the data is loaded, and [x_q] holds the query of an earlier cell. *)
Definition loaded (x : ndarray2) (y : list Z) : notebook :=
  mk_notebook x y [200; 1000]%float 0 0 0 [] NaN [].

(** The same data in a notebook whose other variables hold leftovers. *)
Definition reused (x : ndarray2) (y : list Z) : notebook :=
  mk_notebook x y [1; 1]%float (length y) 33 2 [1; 1; 1]%Z Inf [Header].

(** An argsort that hands back the two nearest indices in the other order. *)
Definition swapped_argsort (d : list float) : list nat :=
  match insertion_argsort d with
  | a :: b :: i => b :: a :: i
  | i => i
  end.

(** The line the sweep prints for [k]: [k] with the share of the examples
    whose prediction with [K = k] differs from their label. *)
Definition row_for (argsort : list float -> list nat) (x : ndarray2) (y : list Z)
  (k : Z) (r : line) : Prop :=
  exists ps q,
    mapM (prediction argsort x y k) (seq 0 (length y)) = Ok ps /\
    q = (Z.of_nat (misclassified y ps) # Pos.of_nat (length y))%Q /\
    (0 <= q)%Q /\ (q <= 1)%Q /\
    r = Row k (Quotient q).

(** ** The plot of the query and its nearest neighbours *)

(** The calls to matplotlib, in the order they are made.  What a call draws
    is matplotlib's business; the calls are taken not to raise. *)
Inductive pl_call : Type :=
| Figure (name : string)
| Scatter (xs ys : list float) (c marker : string) (s : nat) (label : string)
| Plot (xs ys : list float) (c : string) (linewidth : nat)
| XLabel (name : string) (fontsize : nat)
| YLabel (name : string) (fontsize : nat)
| Legend (scatterpoints fontsize : nat) (loc : string)
| Title (name : string) (fontsize : nat)
| TightLayout
| SaveFig (file : string).

(** A computation that calls matplotlib: from the calls made so far to the
    calls made when it ends, with its value or the exception that ended it
    (the calls made before an exception stay made). *)
Definition plotting (A : Type) : Type := list pl_call -> list pl_call * result A.

Definition bind_plotting {A B : Type} (c : plotting A) (k : A -> plotting B)
  : plotting B :=
  fun calls =>
    match c calls with
    | (calls', Ok a) => k a calls'
    | (calls', Raise e) => (calls', Raise e)
    end.

Definition call (c : pl_call) : plotting unit := fun calls => (calls ++ [c], Ok tt).

Definition lift {A : Type} (r : result A) : plotting A := fun calls => (calls, r).

Notation "x <~ c ;; k" := (bind_plotting c (fun x => k))
  (at level 61, c at next level, right associativity).
Notation "c ;;; k" := (bind_plotting c (fun _ => k))
  (at level 61, right associativity).

Fixpoint for_plotting {A : Type} (body : A -> plotting unit) (l : list A) : plotting unit :=
  match l with
  | [] => fun calls => (calls, Ok tt)
  | a :: l' => body a ;;; for_plotting body l'
  end.

(** [x[mask, :]] for a boolean [mask]: its length has to be the number of
    rows. *)
Definition mask_rows (x : ndarray2) (mask : list bool) : result ndarray2 :=
  if length mask =? nrows x then
    Ok (mk_ndarray2 (ncols x)
          (map fst (filter (fun p => snd p) (combine (rows x) mask))))
  else Raise IndexError.

(** [x[:, j]] *)
Definition column (x : ndarray2) (j : nat) : result (list float) :=
  if j <? ncols x then Ok (map (fun r => nth j r 0%float) (rows x))
  else Raise IndexError.

(** [np.vstack((a, b))] of two one-dimensional arrays. *)
Definition vstack (a b : list float) : result ndarray2 :=
  if length a =? length b then Ok (mk_ndarray2 (length a) [a; b])
  else Raise ValueError.

(** [np.arange(K)] *)
Definition arange_upto (k : Z) : list nat := seq 0 (Z.to_nat k).

Section Plot.

Variable argsort : list float -> list nat.

(** The body of [for k in np.arange(K)]: the line from the query to the
    [k]-th nearest example. *)
Definition plot_neighbour (x : ndarray2) (x_q : list float) (i : list nat) (k : nat)
  : plotting unit :=
  ik <~ lift (getitem i k) ;;
  row <~ lift (getitem (rows x) ik) ;;
  temp <~ lift (vstack x_q row) ;;
  t0 <~ lift (column temp 0) ;;
  t1 <~ lift (column temp 1) ;;
  call (Plot t0 t1 "g" 2).

(** [def scatter_plot_two_features_only(x, y, feature1_name, feature2_name,
    x_q, K=3)] *)
Definition scatter_plot_two_features_only (x : ndarray2) (y : list Z)
  (feature1_name feature2_name : string) (x_q : list float) (K : Z) : plotting unit :=
  let font_size := 22 in
  x_class0 <~ lift (mask_rows x (map (fun l => (l =? 0)%Z) y)) ;;
  x_class1 <~ lift (mask_rows x (map (fun l => (l =? 1)%Z) y)) ;;
  let figure_name := (feature1_name ++ " vs " ++ feature2_name ++ " Query")%string in
  call (Figure figure_name) ;;;
  a0 <~ lift (column x_class0 0) ;;
  a1 <~ lift (column x_class0 1) ;;
  call (Scatter a0 a1 "r" "s" 32 "$0$") ;;;
  b0 <~ lift (column x_class1 0) ;;
  b1 <~ lift (column x_class1 1) ;;
  call (Scatter b0 b1 "b" "o" 32 "$1$") ;;;
  q0 <~ lift (getitem x_q 0) ;;
  q1 <~ lift (getitem x_q 1) ;;
  call (Scatter [q0] [q1] "g" "*" 64 "query") ;;;
  d <~ lift (distances x x_q) ;;
  let i := argsort d in
  for_plotting (plot_neighbour x x_q i) (arange_upto K) ;;;
  call (XLabel feature1_name font_size) ;;;
  call (YLabel feature2_name font_size) ;;;
  call (Legend 1 font_size "upper right") ;;;
  call (Title figure_name font_size) ;;;
  call TightLayout ;;;
  call (SaveFig (figure_name ++ ".jpg")%string).

End Plot.

(** The calls before the neighbours' lines: the figure, the examples of
    label 0, those of label 1, the query. *)
Definition plot_head (x : ndarray2) (y : list Z) (feature1_name feature2_name : string)
  (x_q : list float) : list pl_call :=
  let class0 := map fst (filter (fun p => (snd p =? 0)%Z) (combine (rows x) y)) in
  let class1 := map fst (filter (fun p => (snd p =? 1)%Z) (combine (rows x) y)) in
  [ Figure (feature1_name ++ " vs " ++ feature2_name ++ " Query")%string;
    Scatter (map (fun r => nth 0 r 0%float) class0) (map (fun r => nth 1 r 0%float) class0)
            "r" "s" 32 "$0$";
    Scatter (map (fun r => nth 0 r 0%float) class1) (map (fun r => nth 1 r 0%float) class1)
            "b" "o" 32 "$1$";
    Scatter [nth 0 x_q 0%float] [nth 1 x_q 0%float] "g" "*" 64 "query" ].

(** The line from the query to example [j]. *)
Definition segment (x : ndarray2) (x_q : list float) (j : nat) : pl_call :=
  let row := nth j (rows x) [] in
  Plot [nth 0 x_q 0%float; nth 0 row 0%float] [nth 1 x_q 0%float; nth 1 row 0%float]
       "g" 2.

(** The calls after the neighbours' lines. *)
Definition plot_tail (feature1_name feature2_name : string) : list pl_call :=
  [ XLabel feature1_name 22; YLabel feature2_name 22; Legend 1 22 "upper right";
    Title (feature1_name ++ " vs " ++ feature2_name ++ " Query")%string 22;
    TightLayout;
    SaveFig ((feature1_name ++ " vs " ++ feature2_name ++ " Query") ++ ".jpg")%string ].

(** ** The cells that cut the features out of the data *)

(** [x[:, :-1]]: every column but the last (a slice, which never raises). *)
Definition drop_last_column (x : ndarray2) : ndarray2 :=
  mk_ndarray2 (slice_stop (ncols x) (-1)) (map (fun r => slice0 r (-1)) (rows x)).

(** [x[:, cols]] for a list of column indices. *)
Definition select_columns (x : ndarray2) (cols : list nat) : result ndarray2 :=
  if forallb (fun c => c <? ncols x) cols then
    Ok (mk_ndarray2 (length cols)
          (map (fun r => map (fun c => nth c r 0%float) cols) (rows x)))
  else Raise IndexError.

(** [x_training = training_data[:, :-1]] and then
    [x_training_selected = x_training[:, [2, 3]]]. *)
Definition select_light_and_co2 (training_data : ndarray2) : result ndarray2 :=
  let x_training := drop_last_column training_data in
  select_columns x_training [2; 3].

(** * Facts about the operations *)

Lemma bind_Ok {A B : Type} (c : result A) (k : A -> result B) (b : B) :
  bind c k = Ok b -> exists a, c = Ok a /\ k a = Ok b.
Proof.
  destruct c as [a|e]; simpl; intros H; [exists a; auto | discriminate].
Qed.

Lemma mapM_pure {A B : Type} (f : A -> result B) (g : A -> B) (l : list A) :
  (forall a, In a l -> f a = Ok (g a)) -> mapM f l = Ok (map g l).
Proof.
  induction l as [|a l IH]; simpl; intros H; [reflexivity|].
  rewrite (H a) by auto. simpl. rewrite IH by auto. reflexivity.
Qed.

Lemma getitem_nth {A : Type} (l : list A) (j : nat) (dflt : A) :
  j < length l -> getitem l j = Ok (nth j l dflt).
Proof.
  intros H. unfold getitem.
  rewrite (nth_error_nth' l dflt H). reflexivity.
Qed.

Lemma getitem_In {A : Type} (l : list A) (j : nat) (a : A) :
  getitem l j = Ok a -> In a l.
Proof.
  unfold getitem. destruct (nth_error l j) eqn:E; [|discriminate].
  intros H. injection H as <-. eapply nth_error_In; eauto.
Qed.

Lemma take_nth {A : Type} (l : list A) (idx : list nat) (dflt : A) :
  Forall (fun j => j < length l) idx ->
  take l idx = Ok (map (fun j => nth j l dflt) idx).
Proof.
  intros H. unfold take. apply mapM_pure.
  intros j Hj. apply getitem_nth. rewrite Forall_forall in H. auto.
Qed.

(** *** Slices *)

Lemma slice0_incl {A : Type} (l : list A) (k : Z) (a : A) :
  In a (slice0 l k) -> In a l.
Proof.
  unfold slice0. intros H.
  rewrite <- (firstn_skipn (slice_stop (length l) k) l).
  apply in_or_app. left. exact H.
Qed.

Lemma slice0_all {A : Type} (l : list A) (k : Z) :
  (Z.of_nat (length l) <= k)%Z -> slice0 l k = l.
Proof.
  intros H. unfold slice0, slice_stop.
  destruct (k <? 0)%Z eqn:E; [lia|].
  apply firstn_all2. lia.
Qed.

Lemma slice0_empty {A : Type} (l : list A) (k : Z) :
  (k = 0 \/ k <= - Z.of_nat (length l))%Z -> slice0 l k = [].
Proof.
  intros H. unfold slice0, slice_stop.
  destruct (k <? 0)%Z eqn:E.
  - replace (Z.to_nat (Z.of_nat (length l) + k)) with 0 by lia. reflexivity.
  - replace (Nat.min (Z.to_nat k) (length l)) with 0 by lia. reflexivity.
Qed.

Lemma slice0_negative {A : Type} (l : list A) (k : Z) :
  (- Z.of_nat (length l) < k < 0)%Z ->
  slice0 l k = slice0 l (Z.of_nat (length l) + k).
Proof.
  intros H. unfold slice0, slice_stop.
  destruct (k <? 0)%Z eqn:E; [|lia].
  destruct (Z.of_nat (length l) + k <? 0)%Z eqn:E'; [lia|].
  f_equal. lia.
Qed.

Lemma slice0_one {A : Type} (a : A) (l' : list A) :
  slice0 (a :: l') 1 = [a].
Proof. reflexivity. Qed.

(** *** Permutations of the indices *)

Lemma insert_index_perm (d : list float) (j : nat) (i : list nat) :
  Permutation (insert_index d j i) (j :: i).
Proof.
  induction i as [|e i IH]; simpl; [reflexivity|].
  destruct (np_lt _ _); [reflexivity|].
  rewrite IH. apply perm_swap.
Qed.

Lemma insertion_argsort_permutes : argsort_permutes insertion_argsort.
Proof.
  intros d. unfold insertion_argsort.
  assert (G : forall l acc,
             Permutation (fold_left (fun i j => insert_index d j i) l acc) (acc ++ l)).
  { induction l as [|j l IH]; intros acc; simpl.
    - rewrite app_nil_r. reflexivity.
    - rewrite IH, insert_index_perm.
      change (j :: acc) with ([j] ++ acc).
      rewrite (Permutation_app_comm [j] acc), <- app_assoc. reflexivity. }
  apply (G _ []).
Qed.

Lemma permutes_in_range (argsort : list float -> list nat) (d : list float) :
  argsort_permutes argsort ->
  Forall (fun j => j < length d) (argsort d).
Proof.
  intros H. rewrite Forall_forall. intros j Hj.
  apply (Permutation_in _ (H d)) in Hj. apply in_seq in Hj. lia.
Qed.

Lemma permutes_length (argsort : list float -> list nat) (d : list float) :
  argsort_permutes argsort -> length (argsort d) = length d.
Proof.
  intros H. rewrite (Permutation_length (H d)). apply length_seq.
Qed.

(** Reading [y] along a permutation of its indices permutes [y]. *)
Lemma map_nth_seq (y : list Z) :
  map (fun j => nth j y 0%Z) (seq 0 (length y)) = y.
Proof.
  induction y as [|a y IH]; simpl; [reflexivity|].
  f_equal. rewrite <- seq_shift, map_map. exact IH.
Qed.

Lemma take_permutation (y : list Z) (i : list nat) :
  Permutation i (seq 0 (length y)) ->
  Permutation (map (fun j => nth j y 0%Z) i) y.
Proof.
  intros H. rewrite (Permutation_map _ H), map_nth_seq. reflexivity.
Qed.

(** *** [np.unique] *)

Lemma insert_label_perm (a : Z) (l : list Z) :
  Permutation (insert_label a l) (a :: l).
Proof.
  induction l as [|b l IH]; simpl; [reflexivity|].
  destruct (a <=? b)%Z; [reflexivity|].
  rewrite IH. apply perm_swap.
Qed.

Lemma sort_labels_perm (y : list Z) : Permutation (sort_labels y) y.
Proof.
  induction y as [|a y IH]; simpl; [reflexivity|].
  rewrite insert_label_perm, IH. reflexivity.
Qed.

Lemma insert_label_sorted (a : Z) (l : list Z) :
  StronglySorted Z.le l -> StronglySorted Z.le (insert_label a l).
Proof.
  induction 1 as [|b l Hs IH Hb]; simpl.
  - repeat constructor.
  - destruct (a <=? b)%Z eqn:E.
    + apply Z.leb_le in E. constructor; [constructor; assumption|].
      constructor; [exact E|].
      rewrite Forall_forall in *. intros c Hc. specialize (Hb c Hc). lia.
    + apply Z.leb_gt in E. constructor; [exact IH|].
      rewrite Forall_forall in *. intros c Hc.
      apply (Permutation_in _ (insert_label_perm a l)) in Hc.
      destruct Hc as [<-|Hc]; [lia | auto].
Qed.

Lemma sort_labels_sorted (y : list Z) : StronglySorted Z.le (sort_labels y).
Proof.
  induction y as [|a y IH]; simpl; [constructor | apply insert_label_sorted, IH].
Qed.

Lemma drop_repeats_spec (l : list Z) :
  forall a, StronglySorted Z.le (a :: l) ->
    StronglySorted Z.lt (a :: drop_repeats a l) /\
    (forall b, In b (a :: drop_repeats a l) <-> In b (a :: l)).
Proof.
  induction l as [|b l IH]; intros a Hs; cbn [drop_repeats].
  - split; [repeat constructor | tauto].
  - inversion Hs as [|? ? Hs' Ha]; subst.
    inversion Hs' as [|? ? Hs'' Hb]; subst.
    inversion Ha as [|? ? Hab Hal]; subst.
    destruct (b =? a)%Z eqn:E.
    + apply Z.eqb_eq in E. subst b.
      destruct (IH a) as [S1 S2]; [constructor; assumption|].
      split; [exact S1|].
      intros c. rewrite (S2 c). simpl. tauto.
    + apply Z.eqb_neq in E.
      destruct (IH b Hs') as [S1 S2].
      split.
      * constructor; [exact S1|].
        rewrite Forall_forall. intros c Hc. apply S2 in Hc.
        destruct Hc as [<-|Hc]; [lia|].
        rewrite Forall_forall in Hb. specialize (Hb c Hc). lia.
      * intros c. specialize (S2 c). simpl in *. tauto.
Qed.

Lemma unique_sorted (y : list Z) : StronglySorted Z.lt (unique y).
Proof.
  unfold unique. pose proof (sort_labels_sorted y) as H.
  destruct (sort_labels y) as [|a l]; [constructor|].
  apply drop_repeats_spec, H.
Qed.

Lemma unique_In (y : list Z) (l : Z) : In l (unique y) <-> In l y.
Proof.
  unfold unique. pose proof (sort_labels_sorted y) as H.
  pose proof (sort_labels_perm y) as P.
  destruct (sort_labels y) as [|a s] eqn:E.
  - apply Permutation_nil in P. subst y. tauto.
  - rewrite (proj2 (drop_repeats_spec s a H)).
    split; intros G.
    + apply (Permutation_in _ P), G.
    + apply (Permutation_in _ (Permutation_sym P)), G.
Qed.

Lemma unique_nonempty (y : list Z) : y <> [] -> unique y <> [].
Proof.
  destruct y as [|a y]; [congruence|]. intros _ H.
  assert (G : In a (unique (a :: y))) by (apply unique_In; left; reflexivity).
  rewrite H in G. exact G.
Qed.

(** *** [np.argmax] and the vote *)

Lemma first_max_lt (c : list nat) : c <> [] -> first_max c < length c.
Proof.
  induction c as [|v c IH]; [congruence|]. intros _. simpl.
  destruct (list_max c <=? v) eqn:E; [lia|].
  apply Nat.leb_gt in E.
  destruct c as [|w c]; [simpl in E; lia|].
  assert (first_max (w :: c) < length (w :: c)) by (apply IH; discriminate).
  lia.
Qed.

Lemma winner_spec (f : Z -> nat) (labels : list Z) :
  labels <> [] ->
  In (winner f labels) labels /\
  f (winner f labels) = list_max (map f labels) /\
  (forall l, In l labels -> f l <= f (winner f labels)) /\
  (StronglySorted Z.lt labels ->
   forall l, In l labels -> f l = f (winner f labels) -> (winner f labels <= l)%Z).
Proof.
  unfold winner.
  induction labels as [|a ls IH]; [congruence|]. intros _.
  simpl map. simpl first_max.
  destruct (list_max (map f ls) <=? f a) eqn:E.
  - apply Nat.leb_le in E. simpl nth.
    assert (B : forall l, In l ls -> f l <= f a).
    { intros l Hl. pose proof (proj1 (list_max_le (map f ls) (f a)) E) as F.
      rewrite Forall_forall in F. apply F, in_map, Hl. }
    repeat split.
    + left. reflexivity.
    + simpl. lia.
    + intros l [<-|Hl]; [lia | auto].
    + intros Hs l [<-|Hl] _; [lia|].
      inversion Hs as [|? ? _ Ha]; subst.
      rewrite Forall_forall in Ha. specialize (Ha l Hl). lia.
  - apply Nat.leb_gt in E.
    assert (Hne : ls <> []) by (intros ->; simpl in E; lia).
    destruct (IH Hne) as (I1 & I2 & I3 & I4).
    change (nth (S (first_max (map f ls))) (a :: ls) 0%Z)
      with (nth (first_max (map f ls)) ls 0%Z).
    repeat split.
    + right. exact I1.
    + rewrite I2. simpl. lia.
    + intros l [<-|Hl]; [lia | auto].
    + intros Hs l [<-|Hl] Hf; [lia|].
      inversion Hs; subst. auto.
Qed.

(** *** Distances *)

Lemma broadcast_sub_nrows (x diff : ndarray2) (xq : list float) :
  broadcast_sub x xq = Ok diff -> nrows diff = nrows x.
Proof.
  unfold broadcast_sub, nrows.
  destruct (ncols x =? length xq);
    [|destruct (length xq =? 1); [|destruct (ncols x =? 1); [|discriminate]]];
    intros H; injection H as <-; simpl; apply length_map.
Qed.

Lemma distances_length (x : ndarray2) (xq d : list float) :
  distances x xq = Ok d -> length d = nrows x.
Proof.
  unfold distances. intros H.
  apply bind_Ok in H. destruct H as (diff & Hb & H). injection H as <-.
  unfold sum_axis1, square. simpl. rewrite !length_map.
  apply (broadcast_sub_nrows _ _ _ Hb).
Qed.

Lemma distances_same_dim (x : ndarray2) (xq : list float) :
  length xq = ncols x -> exists d, distances x xq = Ok d.
Proof.
  intros H. unfold distances, broadcast_sub.
  rewrite H, Nat.eqb_refl. simpl. eexists. reflexivity.
Qed.

(** *** The classifier as a vote *)

Lemma count_label_single (a l : Z) :
  count_label [a] l = if Z.eq_dec a l then 1 else 0.
Proof. unfold count_label. simpl. destruct (Z.eq_dec a l); reflexivity. Qed.

Lemma count_label_In (nb : list Z) (l : Z) : 0 < count_label nb l -> In l nb.
Proof. intros H. apply (count_occ_In Z.eq_dec). exact H. Qed.


Lemma vote_spec (nb y : list Z) :
  y <> [] -> incl nb y ->
  let w := winner (count_label nb) (unique y) in
  In w y /\
  (forall l, count_label nb l <= count_label nb w) /\
  (forall l, In l y -> count_label nb l = count_label nb w -> (w <= l)%Z).
Proof.
  intros Hy Hnb w.
  destruct (winner_spec (count_label nb) (unique y) (unique_nonempty y Hy))
    as (W1 & _ & W3 & W4).
  fold w in W1, W3, W4.
  repeat split.
  - apply unique_In, W1.
  - intros l. destruct (in_dec Z.eq_dec l nb) as [Hl|Hl].
    + apply W3, unique_In, Hnb, Hl.
    + unfold count_label at 1.
      rewrite (proj1 (count_occ_not_In Z.eq_dec nb l) Hl). lia.
  - intros l Hl. apply (W4 (unique_sorted y)), unique_In, Hl.
Qed.

Section ClassifierFacts.

Variable argsort : list float -> list nat.

Lemma neighbours_nth (y : list Z) (d : list float) (k : Z) :
  Forall (fun j => j < length y) (slice0 (argsort d) k) ->
  neighbours argsort y d k
  = Ok (map (fun j => nth j y 0%Z) (slice0 (argsort d) k)).
Proof. intros H. unfold neighbours. apply take_nth, H. Qed.

Lemma neighbours_incl (y nb : list Z) (d : list float) (k : Z) :
  neighbours argsort y d k = Ok nb -> incl nb y.
Proof.
  unfold neighbours, take.
  generalize (slice0 (argsort d) k). intros idx. revert nb.
  induction idx as [|j idx IH]; simpl; intros nb H.
  - injection H as <-. intros a [].
  - apply bind_Ok in H. destruct H as (a & Ha & H).
    apply bind_Ok in H. destruct H as (bs & Hbs & H). injection H as <-.
    intros b [<-|Hb]; [eapply getitem_In; eauto | eapply IH; eauto].
Qed.

Lemma KNN_winner (x : ndarray2) (y : list Z) (xq d : list float) (k : Z) (nb : list Z) :
  distances x xq = Ok d ->
  neighbours argsort y d k = Ok nb ->
  y <> [] ->
  KNN argsort x y xq k = Ok (winner (count_label nb) (unique y)).
Proof.
  intros Hd Hnb Hy. unfold KNN. rewrite Hd. simpl bind.
  unfold neighbours in Hnb.
  rewrite (mapM_pure _ (count_label nb)) by (intros; rewrite Hnb; reflexivity).
  simpl bind. pose proof (unique_nonempty y Hy) as Hu.
  unfold argmax. destruct (map (count_label nb) (unique y)) eqn:E.
  - destruct (unique y); [congruence | discriminate].
  - rewrite <- E. simpl bind. unfold winner.
    apply getitem_nth. rewrite <- (length_map (count_label nb)).
    apply first_max_lt. rewrite E. discriminate.
Qed.

(** The label [KNN] returns is one of [y], whatever made it return. *)
Lemma KNN_Ok_In (x : ndarray2) (y : list Z) (xq : list float) (k l : Z) :
  KNN argsort x y xq k = Ok l -> In l y.
Proof.
  unfold KNN. intros H.
  apply bind_Ok in H. destruct H as (d & _ & H).
  apply bind_Ok in H. destruct H as (c & _ & H).
  apply bind_Ok in H. destruct H as (i & _ & H).
  apply unique_In. eapply getitem_In; eauto.
Qed.

Hypothesis argsort_perm : argsort_permutes argsort.

Lemma slice_in_range (y : list Z) (d : list float) (k : Z) :
  length d = length y ->
  Forall (fun j => j < length y) (slice0 (argsort d) k).
Proof.
  intros H. rewrite Forall_forall. intros j Hj.
  apply slice0_incl in Hj.
  pose proof (permutes_in_range argsort d argsort_perm) as F.
  rewrite Forall_forall in F. rewrite <- H. auto.
Qed.

(** A call whose distances are computed returns the winner of the vote among
    [y[i[0:K]]]. *)
Lemma KNN_returns_of_distances (x : ndarray2) (y : list Z) (xq d : list float) (k : Z) :
  distances x xq = Ok d -> nrows x = length y -> y <> [] ->
  length d = length y /\
  let nb := map (fun j => nth j y 0%Z) (slice0 (argsort d) k) in
  neighbours argsort y d k = Ok nb /\
  KNN argsort x y xq k = Ok (winner (count_label nb) (unique y)).
Proof.
  intros Hd Hn Hy.
  assert (Hlen : length d = length y)
    by (rewrite (distances_length _ _ _ Hd); exact Hn).
  split; [exact Hlen|]. intros nb.
  assert (Hnb : neighbours argsort y d k = Ok nb)
    by (apply neighbours_nth, slice_in_range, Hlen).
  split; [exact Hnb|]. apply (KNN_winner x y xq d k nb Hd Hnb Hy).
Qed.

Lemma KNN_returns (x : ndarray2) (y : list Z) (xq : list float) (k : Z) :
  length xq = ncols x -> nrows x = length y -> y <> [] ->
  exists d,
    distances x xq = Ok d /\ length d = length y /\
    let nb := map (fun j => nth j y 0%Z) (slice0 (argsort d) k) in
    neighbours argsort y d k = Ok nb /\
    KNN argsort x y xq k = Ok (winner (count_label nb) (unique y)).
Proof.
  intros Hdim Hn Hy.
  destruct (distances_same_dim x xq Hdim) as (d & Hd).
  exists d. split; [exact Hd|].
  apply (KNN_returns_of_distances x y xq d k Hd Hn Hy).
Qed.

(** With K = 1 the vote has one voter, the first index of the sort. *)
Lemma KNN_one (x : ndarray2) (y : list Z) (xq : list float) :
  length xq = ncols x -> nrows x = length y -> y <> [] ->
  exists d j l,
    distances x xq = Ok d /\
    hd_error (argsort d) = Some j /\ getitem y j = Ok l /\
    neighbours argsort y d 1 = Ok [l] /\
    KNN argsort x y xq 1 = Ok l /\
    (forall l', l' <> l -> count_label [l] l' < count_label [l] l).
Proof.
  intros Hdim Hn Hy.
  destruct (KNN_returns x y xq 1 Hdim Hn Hy) as (d & Hd & Hlen & Hnb & HK).
  pose proof (permutes_length argsort d argsort_perm) as Hl.
  pose proof (permutes_in_range argsort d argsort_perm) as Hr.
  destruct (argsort d) as [|j rest] eqn:E.
  - destruct y; [congruence | simpl in *; lia].
  - rewrite slice0_one in Hnb, HK. cbn [map] in Hnb, HK.
    inversion Hr as [|? ? Hj _]; subst. rewrite Hlen in Hj.
    set (l := nth j y 0%Z) in *.
    assert (Hincl : incl [l] y) by (eapply neighbours_incl; eauto).
    destruct (vote_spec [l] y Hy Hincl) as (_ & V2 & _).
    set (w := winner (count_label [l]) (unique y)) in *.
    assert (Hw : w = l).
    { specialize (V2 l). rewrite !count_label_single in V2.
      destruct (Z.eq_dec l l); [|congruence].
      destruct (Z.eq_dec l w); [congruence | lia]. }
    exists d, j, l. rewrite E.
    split; [exact Hd|]. split; [reflexivity|].
    split; [apply getitem_nth, Hj|]. split; [exact Hnb|].
    split; [rewrite <- Hw; exact HK|].
    intros l' Hl'. rewrite !count_label_single.
    destruct (Z.eq_dec l l'); [congruence|].
    destruct (Z.eq_dec l l); [lia | congruence].
Qed.

End ClassifierFacts.

(** *** The loops of the training-error cell *)

Lemma replace_nth_app {A : Type} (done rest : list A) (a v : A) :
  replace_nth (done ++ a :: rest) (length done) v = done ++ v :: rest.
Proof. induction done as [|b done IH]; simpl; [reflexivity | rewrite IH; reflexivity]. Qed.

Section TrainingErrorFacts.

Variable argsort : list float -> list nat.

Lemma predict_example_eq (i : nat) (s : notebook) :
  predict_example argsort i s
  = (row <- getitem (rows (x_training_selected s)) i ;;
     label <- KNN argsort (x_training_selected s) (y_training s) row (K s) ;;
     y_pred <- setitem (y_prediction s) i label ;;
     Ok (set_y_prediction y_pred (set_x_q row (set_n i s)))).
Proof. reflexivity. Qed.

Lemma for_each_predict (l : list nat) :
  forall (s : notebook) (done : list Z),
    y_prediction s = done ++ repeat 0%Z (length l) ->
    l = seq (length done) (length l) ->
    match mapM (prediction argsort (x_training_selected s) (y_training s) (K s)) l with
    | Ok ps =>
        exists s', for_each (predict_example argsort) l s = Ok s' /\
                   inner_frame s s' /\ y_prediction s' = done ++ ps
    | Raise e => for_each (predict_example argsort) l s = Raise e
    end.
Proof.
  induction l as [|a l IH]; intros s done Hyp Hl.
  - simpl. exists s. rewrite app_nil_r in Hyp.
    rewrite app_nil_r. unfold inner_frame, same_data. auto 10.
  - simpl in Hl. injection Hl as Ha Hl. subst a.
    cbn [mapM for_each]. unfold prediction at 1. rewrite predict_example_eq.
    destruct (getitem (rows (x_training_selected s)) (length done))
      as [row|e]; [|reflexivity].
    cbn [bind].
    destruct (KNN argsort (x_training_selected s) (y_training s) row (K s))
      as [label|e]; [|reflexivity].
    cbn [bind]. unfold setitem. rewrite Hyp.
    replace (length done <? length (done ++ repeat 0%Z (length (length done :: l))))
      with true
      by (symmetry; apply Nat.ltb_lt; rewrite length_app, repeat_length; simpl; lia).
    cbn [bind length repeat]. rewrite replace_nth_app.
    set (s1 := set_y_prediction _ _).
    specialize (IH s1 (done ++ [label])).
    assert (H1 : y_prediction s1 = (done ++ [label]) ++ repeat 0%Z (length l))
      by (unfold s1; simpl; rewrite <- app_assoc; reflexivity).
    assert (H2 : l = seq (length (done ++ [label])) (length l))
      by (rewrite length_app; simpl; rewrite Nat.add_1_r; exact Hl).
    specialize (IH H1 H2).
    change (x_training_selected s1) with (x_training_selected s) in IH.
    change (y_training s1) with (y_training s) in IH.
    change (K s1) with (K s) in IH.
    destruct (mapM (prediction argsort (x_training_selected s) (y_training s) (K s)) l)
      as [ps|e]; cbn [bind].
    + destruct IH as (s' & R & F & Y). exists s'. split; [exact R|]. split.
      * unfold inner_frame, same_data in *. exact F.
      * rewrite Y, <- app_assoc. reflexivity.
    + exact IH.
Qed.

(** One round of the outer loop, as a function of the data, [N] and [k]. *)
Lemma error_for_K_run (k : Z) (s : notebook) :
  match mapM (prediction argsort (x_training_selected s) (y_training s) k)
             (seq 0 (N s)) with
  | Ok ps =>
      exists s', error_for_K argsort k s = Ok s' /\
        same_data s s' /\ N s' = N s /\ K s' = k /\ y_prediction s' = ps /\
        classification_error s'
        = true_divide (count_mismatches (y_training s) ps) (N s) /\
        stdout s' = stdout s ++ [Row k (classification_error s')]
  | Raise e => error_for_K argsort k s = Raise e
  end.
Proof.
  unfold error_for_K.
  set (s0 := set_y_prediction _ (set_K k s)).
  pose proof (for_each_predict (seq 0 (N s)) s0 []) as H.
  rewrite length_seq in H.
  specialize (H eq_refl eq_refl).
  change (x_training_selected s0) with (x_training_selected s) in H.
  change (y_training s0) with (y_training s) in H.
  change (K s0) with k in H. change (N s0) with (N s).
  destruct (mapM (prediction argsort (x_training_selected s) (y_training s) k)
                 (seq 0 (N s))) as [ps|e].
  - unfold inner_frame, same_data in H.
    destruct H as (s' & R & ((Fx & Fy) & FN & FK & _ & Fo) & Y).
    rewrite R. cbn [bind]. eexists. split; [reflexivity|].
    unfold same_data. simpl in *. rewrite Fx, Fy, FN, FK, Fo, Y. auto 10.
  - rewrite H. reflexivity.
Qed.

End TrainingErrorFacts.

(** * The classifier's claims *)

Lemma KNN_same_slice argsort x y xq (k k' : Z) :
  (forall d, distances x xq = Ok d -> slice0 (argsort d) k = slice0 (argsort d) k') ->
  KNN argsort x y xq k = KNN argsort x y xq k'.
Proof.
  intros H. unfold KNN. destruct (distances x xq) as [d|e]; [|reflexivity].
  cbn [bind]. rewrite (H d eq_refl). reflexivity.
Qed.

(** C3: on a dataset of N labelled examples, a query of the dataset's
    dimension and 1 <= K <= N, [KNN] returns a label whose count among the K
    nearest neighbours is maximal, and every label with the same count is
    greater or equal: a tie goes to the smallest label. *)
Theorem KNN_tie_smallest_label argsort x y xq k :
  argsort_permutes argsort ->
  length xq = ncols x -> nrows x = length y ->
  (1 <= k <= Z.of_nat (length y))%Z ->
  exists d nb l,
    distances x xq = Ok d /\
    neighbours argsort y d k = Ok nb /\ length nb = Z.to_nat k /\
    KNN argsort x y xq k = Ok l /\
    (forall l', count_label nb l' <= count_label nb l) /\
    (forall l', count_label nb l' = count_label nb l -> (l <= l')%Z).
Proof.
  intros Hp Hdim Hn Hk.
  assert (Hy : y <> []) by (intros ->; simpl in Hk; lia).
  destruct (KNN_returns argsort Hp x y xq k Hdim Hn Hy) as (d & Hd & Hlen & Hnb & HK).
  set (nb := map (fun j => nth j y 0%Z) (slice0 (argsort d) k)) in *.
  assert (Hincl : incl nb y) by (eapply neighbours_incl; eauto).
  destruct (vote_spec nb y Hy Hincl) as (V1 & V2 & V3).
  set (w := winner (count_label nb) (unique y)) in *.
  assert (Hlnb : length nb = Z.to_nat k).
  { unfold nb, slice0, slice_stop. rewrite length_map, length_firstn.
    rewrite (permutes_length argsort d Hp), Hlen.
    destruct (k <? 0)%Z eqn:E; lia. }
  exists d, nb, w. repeat split; auto.
  intros l' Hl'. apply V3; [|exact Hl'].
  apply Hincl, count_label_In. rewrite Hl'.
  destruct nb as [|e nb']; [simpl in Hlnb; lia|].
  specialize (V2 e).
  assert (0 < count_label (e :: nb') e)
    by (apply (count_occ_In Z.eq_dec); left; reflexivity).
  lia.
Qed.

Lemma KNN_tie_smallest_label_witness :
  exists d nb l,
    distances line_x [0; 0]%float = Ok d /\
    neighbours insertion_argsort line_y d 2 = Ok nb /\ length nb = Z.to_nat 2 /\
    KNN insertion_argsort line_x line_y [0; 0]%float 2 = Ok l /\
    (forall l', count_label nb l' <= count_label nb l) /\
    (forall l', count_label nb l' = count_label nb l -> (l <= l')%Z).
Proof.
  apply (KNN_tie_smallest_label insertion_argsort line_x line_y [0; 0]%float 2).
  - apply insertion_argsort_permutes.
  - reflexivity.
  - reflexivity.
  - simpl. lia.
Defined.

(** The two nearest neighbours of (0,0) carry the labels 1 and 0, in this
    order: the vote is tied and goes to 0. *)
Example KNN_tie_line :
  (d <- distances line_x [0; 0]%float ;; neighbours insertion_argsort line_y d 2)
  = Ok [1; 0]%Z /\
  KNN insertion_argsort line_x line_y [0; 0]%float 2 = Ok 0%Z.
Proof. split; vm_compute; reflexivity. Qed.

(** C4: on a non-empty dataset and a query of its dimension, [KNN] with
    K = 1 returns the label of the example the sort puts first; that label has
    the only vote, so no other label ties with it. *)
Theorem KNN_one_is_nearest argsort x y xq :
  argsort_permutes argsort ->
  length xq = ncols x -> nrows x = length y -> y <> [] ->
  exists d j l,
    distances x xq = Ok d /\
    hd_error (argsort d) = Some j /\ getitem y j = Ok l /\
    neighbours argsort y d 1 = Ok [l] /\
    KNN argsort x y xq 1 = Ok l /\
    (forall l', l' <> l -> count_label [l] l' < count_label [l] l).
Proof.
  intros Hp Hdim Hn Hy. exact (KNN_one argsort Hp x y xq Hdim Hn Hy).
Qed.

Lemma KNN_one_is_nearest_witness :
  exists d j l,
    distances two_x [1; 1]%float = Ok d /\
    hd_error (insertion_argsort d) = Some j /\ getitem two_y j = Ok l /\
    neighbours insertion_argsort two_y d 1 = Ok [l] /\
    KNN insertion_argsort two_x two_y [1; 1]%float 1 = Ok l /\
    (forall l', l' <> l -> count_label [l] l' < count_label [l] l).
Proof.
  apply (KNN_one_is_nearest insertion_argsort two_x two_y [1; 1]%float).
  - apply insertion_argsort_permutes.
  - reflexivity.
  - reflexivity.
  - discriminate.
Defined.

(** The example of the specification: the point nearest to (1,1) is (0,0). *)
Example KNN_two_points : KNN insertion_argsort two_x two_y [1; 1]%float 1 = Ok 0%Z.
Proof. vm_compute. reflexivity. Qed.

Lemma count_label_permutation (l1 l2 : list Z) (l : Z) :
  Permutation l1 l2 -> count_label l1 l = count_label l2 l.
Proof.
  intros H. unfold count_label.
  apply (proj1 (Permutation_count_occ Z.eq_dec l1 l2) H).
Qed.

(** With K at least N the neighbours are all of [y], in some order. *)
Lemma neighbours_all argsort (y : list Z) (d : list float) (k : Z) :
  argsort_permutes argsort -> length d = length y ->
  (Z.of_nat (length y) <= k)%Z ->
  Permutation (map (fun j => nth j y 0%Z) (slice0 (argsort d) k)) y.
Proof.
  intros Hp Hlen Hk.
  rewrite slice0_all by (rewrite (permutes_length argsort d Hp), Hlen; exact Hk).
  apply take_permutation. rewrite <- Hlen. apply Hp.
Qed.

(** C5: on a non-empty dataset of N examples and a query of its dimension,
    [KNN] with K = N returns a label of [y] that no label of [y] outnumbers
    in the whole of [y], the smallest of those that occur as often. *)
Theorem KNN_all_is_global_majority argsort x y xq :
  argsort_permutes argsort ->
  length xq = ncols x -> nrows x = length y -> y <> [] ->
  exists l,
    KNN argsort x y xq (Z.of_nat (length y)) = Ok l /\ In l y /\
    (forall l', count_label y l' <= count_label y l) /\
    (forall l', count_label y l' = count_label y l -> (l <= l')%Z).
Proof.
  intros Hp Hdim Hn Hy.
  destruct (KNN_returns argsort Hp x y xq (Z.of_nat (length y)) Hdim Hn Hy)
    as (d & Hd & Hlen & Hnb & HK).
  set (nb := map (fun j => nth j y 0%Z) (slice0 (argsort d) (Z.of_nat (length y)))) in *.
  assert (P : Permutation nb y) by (apply neighbours_all; auto; lia).
  assert (Hincl : incl nb y) by (eapply neighbours_incl; eauto).
  destruct (vote_spec nb y Hy Hincl) as (V1 & V2 & V3).
  set (w := winner (count_label nb) (unique y)) in *.
  exists w. split; [exact HK|]. split; [exact V1|]. split.
  - intros l'. rewrite <- !(count_label_permutation nb y _ P). apply V2.
  - intros l' Hl'. rewrite <- !(count_label_permutation nb y _ P) in Hl'.
    apply V3; [|exact Hl'].
    apply Hincl, count_label_In. rewrite Hl', (count_label_permutation nb y _ P).
    apply (count_occ_In Z.eq_dec), V1.
Qed.

Lemma KNN_all_is_global_majority_witness :
  exists l,
    KNN insertion_argsort three_x three_y [10; 10]%float (Z.of_nat (length three_y))
    = Ok l /\ In l three_y /\
    (forall l', count_label three_y l' <= count_label three_y l) /\
    (forall l', count_label three_y l' = count_label three_y l -> (l <= l')%Z).
Proof.
  apply (KNN_all_is_global_majority insertion_argsort three_x three_y [10; 10]%float).
  - apply insertion_argsort_permutes.
  - reflexivity.
  - reflexivity.
  - discriminate.
Defined.

(** The query is the third example, of label 1; the majority label is 0. *)
Example KNN_all_three : KNN insertion_argsort three_x three_y [10; 10]%float 3 = Ok 0%Z.
Proof. vm_compute. reflexivity. Qed.

(** C9: on a non-empty dataset of N examples and a query of its dimension,
    [KNN] with K > N raises nothing and returns the label it returns for
    K = N. *)
Theorem KNN_K_beyond_dataset argsort x y xq k :
  argsort_permutes argsort ->
  length xq = ncols x -> nrows x = length y -> y <> [] ->
  (Z.of_nat (length y) < k)%Z ->
  exists l,
    KNN argsort x y xq k = Ok l /\
    KNN argsort x y xq (Z.of_nat (length y)) = Ok l.
Proof.
  intros Hp Hdim Hn Hy Hk.
  destruct (KNN_returns argsort Hp x y xq (Z.of_nat (length y)) Hdim Hn Hy)
    as (d0 & _ & _ & _ & HK).
  eexists. split; [|exact HK]. rewrite <- HK.
  apply KNN_same_slice. intros d Hd.
  assert (Hlen : length (argsort d) = length y)
    by (rewrite (permutes_length argsort d Hp), (distances_length _ _ _ Hd); exact Hn).
  rewrite !slice0_all by (rewrite Hlen; lia). reflexivity.
Qed.

Lemma KNN_K_beyond_dataset_witness :
  exists l,
    KNN insertion_argsort three_x three_y [10; 10]%float 111 = Ok l /\
    KNN insertion_argsort three_x three_y [10; 10]%float (Z.of_nat (length three_y)) = Ok l.
Proof.
  apply (KNN_K_beyond_dataset insertion_argsort three_x three_y [10; 10]%float 111).
  - apply insertion_argsort_permutes.
  - reflexivity.
  - reflexivity.
  - discriminate.
  - simpl. lia.
Defined.

(** C10: for a non-empty [y] and K >= 1, a label [KNN] returns is an element
    of [y]; and on a dataset of as many rows as [y] has labels and a query of
    its dimension, [KNN] does return one. *)
Theorem KNN_label_from_y argsort x y xq k :
  y <> [] -> (1 <= k)%Z ->
  (forall l, KNN argsort x y xq k = Ok l -> In l y) /\
  (argsort_permutes argsort -> length xq = ncols x -> nrows x = length y ->
   exists l, KNN argsort x y xq k = Ok l /\ In l y).
Proof.
  intros Hy Hk. split.
  - intros l. apply KNN_Ok_In.
  - intros Hp Hdim Hn.
    destruct (KNN_returns argsort Hp x y xq k Hdim Hn Hy) as (d & _ & _ & _ & HK).
    eexists. split; [exact HK|]. eapply KNN_Ok_In, HK.
Qed.

Lemma KNN_label_from_y_witness :
  (forall l, KNN insertion_argsort line_x line_y [9; 9]%float 3 = Ok l -> In l line_y) /\
  (exists l, KNN insertion_argsort line_x line_y [9; 9]%float 3 = Ok l /\ In l line_y).
Proof.
  assert (Hy : line_y <> []) by discriminate.
  assert (Hk : (1 <= 3)%Z) by lia.
  pose proof (KNN_label_from_y insertion_argsort line_x line_y [9; 9]%float 3 Hy Hk)
    as H.
  split; [exact (proj1 H)|].
  apply (proj2 H).
  - apply insertion_argsort_permutes.
  - reflexivity.
  - reflexivity.
Defined.

Example KNN_line_returns :
  KNN insertion_argsort line_x line_y [9; 9]%float 3 = Ok 0%Z /\ In 0%Z line_y.
Proof. split; [vm_compute; reflexivity | simpl; auto]. Qed.

(** *** K out of range, queries of another dimension *)

Lemma winner_no_votes (y : list Z) :
  y <> [] -> forall l, In l y -> (winner (count_label []) (unique y) <= l)%Z.
Proof.
  intros Hy l Hl.
  destruct (vote_spec [] y Hy (incl_nil_l y)) as (_ & _ & V3).
  apply V3; [exact Hl | reflexivity].
Qed.

(** C2, as the code has it: on a non-empty dataset of N examples and a query
    of its dimension, [KNN] with K <= 0 raises nothing and returns a label of
    [y]: the smallest label when K = 0 or K <= -N (no neighbour votes), the
    label it returns for N + K when -N < K < 0 (the slice [i[0:K]] leaves out
    the last -K indices). *)
Theorem KNN_nonpositive_K argsort x y xq k :
  argsort_permutes argsort ->
  length xq = ncols x -> nrows x = length y -> y <> [] ->
  (k <= 0)%Z ->
  exists l,
    KNN argsort x y xq k = Ok l /\ In l y /\
    ((k = 0 \/ k <= - Z.of_nat (length y))%Z -> forall l', In l' y -> (l <= l')%Z) /\
    ((- Z.of_nat (length y) < k < 0)%Z ->
     KNN argsort x y xq (Z.of_nat (length y) + k) = Ok l).
Proof.
  intros Hp Hdim Hn Hy Hk.
  destruct (KNN_returns argsort Hp x y xq k Hdim Hn Hy) as (d & Hd & Hlen & _ & HK).
  assert (Hl : length (argsort d) = length y)
    by (rewrite (permutes_length argsort d Hp); exact Hlen).
  eexists. split; [exact HK|]. split; [eapply KNN_Ok_In, HK|]. split.
  - intros H0. rewrite slice0_empty by (rewrite Hl; exact H0).
    apply winner_no_votes, Hy.
  - intros Hneg. rewrite <- HK. symmetry.
    apply KNN_same_slice. intros d' Hd'.
    assert (Hl' : length (argsort d') = length y)
      by (rewrite (permutes_length argsort d' Hp), (distances_length _ _ _ Hd'); exact Hn).
    rewrite <- Hl'. apply slice0_negative. rewrite Hl'. exact Hneg.
Qed.

Lemma KNN_nonpositive_K_witness :
  exists l,
    KNN insertion_argsort three_x three_y [10; 10]%float (-1) = Ok l /\ In l three_y /\
    ((-1 = 0 \/ -1 <= - Z.of_nat (length three_y))%Z ->
     forall l', In l' three_y -> (l <= l')%Z) /\
    ((- Z.of_nat (length three_y) < -1 < 0)%Z ->
     KNN insertion_argsort three_x three_y [10; 10]%float (Z.of_nat (length three_y) + -1)
     = Ok l).
Proof.
  apply (KNN_nonpositive_K insertion_argsort three_x three_y [10; 10]%float (-1)).
  - apply insertion_argsort_permutes.
  - reflexivity.
  - reflexivity.
  - discriminate.
  - lia.
Defined.

(** With K = 0 and K = -1 the classifier returns a label. *)
Lemma KNN_zero_K_returns :
  (0 <= 0)%Z /\ KNN insertion_argsort two_x two_y [9; 9]%float 0 = Ok 0%Z /\
  (-1 <= 0)%Z /\ KNN insertion_argsort two_x two_y [9; 9]%float (-1) = Ok 1%Z.
Proof. repeat split; try lia; vm_compute; reflexivity. Qed.

Lemma distances_mismatch (x : ndarray2) (xq : list float) :
  length xq <> ncols x -> length xq <> 1 -> ncols x <> 1 ->
  distances x xq = Raise ValueError.
Proof.
  intros H H1 H2. unfold distances, broadcast_sub.
  destruct (Nat.eqb_spec (ncols x) (length xq)); [congruence|].
  destruct (Nat.eqb_spec (length xq) 1); [congruence|].
  destruct (Nat.eqb_spec (ncols x) 1); [congruence|].
  reflexivity.
Qed.

Lemma distances_broadcast (x : ndarray2) (xq : list float) :
  length xq = 1 \/ ncols x = 1 -> exists d, distances x xq = Ok d.
Proof.
  intros H. unfold distances, broadcast_sub.
  destruct (ncols x =? length xq); [eexists; reflexivity|].
  destruct (Nat.eqb_spec (length xq) 1); [eexists; reflexivity|].
  destruct (Nat.eqb_spec (ncols x) 1); [eexists; reflexivity|].
  lia.
Qed.

(** C8, as the code has it: when the query's length differs from the number
    of columns of the dataset, [KNN] raises ValueError (the subtraction
    [x - x_q] does not broadcast) if neither of the two is 1; if one of them
    is 1 the subtraction broadcasts, and on a non-empty dataset with as many
    labels as rows [KNN] returns a label. *)
Theorem KNN_dimension_mismatch argsort x y xq k :
  length xq <> ncols x ->
  (length xq <> 1 -> ncols x <> 1 -> KNN argsort x y xq k = Raise ValueError) /\
  (length xq = 1 \/ ncols x = 1 ->
   argsort_permutes argsort -> nrows x = length y -> y <> [] ->
   exists l, KNN argsort x y xq k = Ok l).
Proof.
  intros Hne. split.
  - intros H1 H2. unfold KNN.
    rewrite (distances_mismatch x xq Hne H1 H2). reflexivity.
  - intros H1 Hp Hn Hy.
    destruct (distances_broadcast x xq H1) as (d & Hd).
    destruct (KNN_returns_of_distances argsort Hp x y xq d k Hd Hn Hy) as (_ & _ & HK).
    eexists. exact HK.
Qed.

Lemma KNN_dimension_mismatch_witness :
  KNN insertion_argsort two_x two_y [1; 1; 1]%float 1 = Raise ValueError /\
  exists l, KNN insertion_argsort two_x two_y [9]%float 1 = Ok l.
Proof.
  split.
  - apply (KNN_dimension_mismatch insertion_argsort two_x two_y [1; 1; 1]%float 1);
      simpl; lia.
  - apply (KNN_dimension_mismatch insertion_argsort two_x two_y [9]%float 1).
    + simpl. lia.
    + left. reflexivity.
    + apply insertion_argsort_permutes.
    + reflexivity.
    + discriminate.
Defined.

(** A query of one entry against a dataset of two columns, and a query of
    three entries against a dataset of one column: both return a label. *)
Lemma KNN_broadcast_returns :
  length [9]%float <> ncols two_x /\
  KNN insertion_argsort two_x two_y [9]%float 1 = Ok 1%Z /\
  length [1; 2; 3]%float <> 1 /\
  KNN insertion_argsort (mk_ndarray2 1 [[0]; [10]]%float) two_y [1; 2; 3]%float 1 = Ok 0%Z.
Proof. repeat split; try (simpl; lia); vm_compute; reflexivity. Qed.

(** * The training error's claims *)

Lemma mapM_Ok_nth {A B : Type} (f : A -> result B) (da : A) (db : B) (l : list A) :
  forall bs, mapM f l = Ok bs ->
    length bs = length l /\
    forall i, i < length l -> f (nth i l da) = Ok (nth i bs db).
Proof.
  induction l as [|a l IH]; simpl; intros bs H.
  - injection H as <-. split; [reflexivity | intros; lia].
  - apply bind_Ok in H. destruct H as (b & Hb & H).
    apply bind_Ok in H. destruct H as (bs' & Hbs & H). injection H as <-.
    destruct (IH bs' Hbs) as (L & G). split; [simpl; lia|].
    intros [|i] Hi; simpl; [exact Hb | apply G; lia].
Qed.

Lemma mapM_total {A B : Type} (f : A -> result B) (l : list A) :
  (forall a, In a l -> exists b, f a = Ok b) -> exists bs, mapM f l = Ok bs.
Proof.
  induction l as [|a l IH]; simpl; intros H; [eexists; reflexivity|].
  destruct (H a (or_introl eq_refl)) as (b & Hb).
  destruct IH as (bs & Hbs); [intros; apply H; auto|].
  rewrite Hb, Hbs. eexists. reflexivity.
Qed.

Lemma filter_map_length {A B : Type} (g : A -> B) (f : B -> bool) (l : list A) :
  length (filter f (map g l)) = length (filter (fun a => f (g a)) l).
Proof.
  induction l as [|a l IH]; simpl; [reflexivity|].
  destruct (f (g a)); simpl; rewrite IH; reflexivity.
Qed.

(** The count the cell takes over the two arrays is the count of the indices
    at which they differ. *)
Lemma count_mismatches_misclassified (y : list Z) :
  forall ps, length ps = length y -> count_mismatches y ps = misclassified y ps.
Proof.
  unfold count_mismatches, misclassified.
  induction y as [|a y IH]; intros [|p ps] H; simpl in H; try discriminate;
    [reflexivity|].
  injection H as H. specialize (IH ps H).
  cbn [combine filter length seq fst snd nth].
  rewrite <- seq_shift.
  destruct (a =? p)%Z; cbn [negb length]; rewrite filter_map_length, IH;
    reflexivity.
Qed.

Lemma count_mismatches_le (y ps : list Z) : count_mismatches y ps <= length y.
Proof.
  unfold count_mismatches.
  etransitivity; [apply filter_length_le|].
  rewrite length_combine. lia.
Qed.

Lemma count_mismatches_same (y : list Z) : count_mismatches y y = 0.
Proof.
  unfold count_mismatches. induction y as [|a y IH]; simpl; [reflexivity|].
  rewrite Z.eqb_refl. exact IH.
Qed.

Lemma true_divide_quotient (a b : nat) :
  0 < b -> true_divide a b = Quotient (Z.of_nat a # Pos.of_nat b).
Proof. destruct b; [lia | reflexivity]. Qed.

Lemma quotient_in_unit_interval (a b : nat) :
  0 < b -> a <= b ->
  (0 <= Z.of_nat a # Pos.of_nat b)%Q /\ (Z.of_nat a # Pos.of_nat b <= 1)%Q.
Proof.
  intros Hb Hab. unfold Qle. cbn [Qnum Qden].
  assert (Z.pos (Pos.of_nat b) = Z.of_nat b)
    by (rewrite <- positive_nat_Z, Nat2Pos.id by lia; reflexivity).
  lia.
Qed.

Lemma rectangular_row (x : ndarray2) (i : nat) :
  rectangular x -> i < nrows x ->
  getitem (rows x) i = Ok (nth i (rows x) []) /\
  length (nth i (rows x) []) = ncols x.
Proof.
  intros Hr Hi. split; [apply getitem_nth, Hi|].
  unfold rectangular in Hr. rewrite Forall_forall in Hr.
  apply Hr, nth_In, Hi.
Qed.

Lemma prediction_returns argsort (x : ndarray2) (y : list Z) (k : Z) (i : nat) :
  argsort_permutes argsort -> rectangular x -> nrows x = length y ->
  i < length y ->
  exists l, prediction argsort x y k i = Ok l.
Proof.
  intros Hp Hr Hn Hi.
  assert (Hy : y <> []) by (intros ->; simpl in Hi; lia).
  rewrite <- Hn in Hi. destruct (rectangular_row x i Hr Hi) as (G & L).
  unfold prediction. rewrite G. cbn [bind].
  destruct (KNN_returns argsort Hp x y (nth i (rows x) []) k L Hn Hy)
    as (d & _ & _ & _ & HK).
  eexists. exact HK.
Qed.

(** C6: on a non-empty rectangular dataset with as many labels as rows, one
    round of the sweep (for any K) returns; the array of predictions holds
    the label [KNN] predicts for each example, and the classification error
    it stores and prints is the number of examples whose prediction differs
    from their label, divided by N, a rational of [[0, 1]]. *)
Theorem classification_error_is_mismatch_rate argsort s k :
  argsort_permutes argsort ->
  rectangular (x_training_selected s) ->
  nrows (x_training_selected s) = length (y_training s) ->
  y_training s <> [] ->
  N s = length (y_training s) ->
  exists s' q,
    error_for_K argsort k s = Ok s' /\
    length (y_prediction s') = N s /\
    (forall i, i < N s ->
       prediction argsort (x_training_selected s) (y_training s) k i
       = Ok (nth i (y_prediction s') 0%Z)) /\
    classification_error s' = Quotient q /\
    q = (Z.of_nat (misclassified (y_training s) (y_prediction s')) # Pos.of_nat (N s))%Q /\
    (0 <= q)%Q /\ (q <= 1)%Q /\
    printed s s' [Row k (Quotient q)].
Proof.
  intros Hp Hr Hn Hy HN.
  pose proof (error_for_K_run argsort k s) as H.
  destruct (mapM_total (prediction argsort (x_training_selected s) (y_training s) k)
                       (seq 0 (N s))) as (ps & Hps).
  { intros i Hi. apply in_seq in Hi.
    apply prediction_returns; auto. lia. }
  rewrite Hps in H. destruct H as (s' & R & _ & _ & _ & Y & E & O).
  destruct (mapM_Ok_nth _ 0 0%Z _ _ Hps) as (L & G).
  rewrite length_seq in L, G.
  assert (HN0 : 0 < N s) by (rewrite HN; destruct (y_training s); [congruence | simpl; lia]).
  rewrite (true_divide_quotient _ _ HN0) in E.
  rewrite count_mismatches_misclassified in E by (rewrite L; exact HN).
  destruct (quotient_in_unit_interval (misclassified (y_training s) ps) (N s) HN0)
    as (Q0 & Q1).
  { rewrite <- count_mismatches_misclassified by (rewrite L; exact HN).
    rewrite HN. apply count_mismatches_le. }
  exists s', (Z.of_nat (misclassified (y_training s) ps) # Pos.of_nat (N s))%Q.
  rewrite Y. split; [exact R|]. split; [exact L|]. split.
  - intros i Hi. specialize (G i Hi). rewrite seq_nth in G by exact Hi. exact G.
  - split; [exact E|]. split; [reflexivity|]. split; [exact Q0|]. split; [exact Q1|].
    unfold printed. rewrite O, E. reflexivity.
Qed.

Lemma classification_error_is_mismatch_rate_witness :
  exists s' q,
    error_for_K insertion_argsort 3 (set_N 3 (loaded three_x three_y)) = Ok s' /\
    length (y_prediction s') = 3 /\
    (forall i, i < 3 ->
       prediction insertion_argsort three_x three_y 3 i
       = Ok (nth i (y_prediction s') 0%Z)) /\
    classification_error s' = Quotient q /\
    q = (Z.of_nat (misclassified three_y (y_prediction s')) # Pos.of_nat 3)%Q /\
    (0 <= q)%Q /\ (q <= 1)%Q /\
    printed (set_N 3 (loaded three_x three_y)) s' [Row 3 (Quotient q)].
Proof.
  apply (classification_error_is_mismatch_rate insertion_argsort
           (set_N 3 (loaded three_x three_y)) 3).
  - apply insertion_argsort_permutes.
  - repeat constructor.
  - reflexivity.
  - discriminate.
  - reflexivity.
Defined.

(** On the three examples and K = 3 the third example is misclassified:
    the error is 1/3. *)
Example error_three :
  exists s',
    error_for_K insertion_argsort 3 (set_N 3 (loaded three_x three_y)) = Ok s' /\
    y_prediction s' = [0; 0; 0]%Z /\
    classification_error s' = Quotient (1 # 3).
Proof. eexists. split; [vm_compute; reflexivity|]. split; reflexivity. Qed.

(** *** Two runs on the same data *)

Section TwoRuns.

Variable argsort : list float -> list nat.

Lemma error_for_K_same (k : Z) (s1 s2 : notebook) :
  x_training_selected s1 = x_training_selected s2 ->
  y_training s1 = y_training s2 ->
  N s1 = N s2 ->
  same_outcome
    (fun a b => same_results a b /\
                exists out, printed s1 a out /\ printed s2 b out)
    (error_for_K argsort k s1) (error_for_K argsort k s2).
Proof.
  intros Hx Hy HN.
  pose proof (error_for_K_run argsort k s1) as H1.
  pose proof (error_for_K_run argsort k s2) as H2.
  rewrite Hx, Hy, HN in H1.
  destruct (mapM (prediction argsort (x_training_selected s2) (y_training s2) k)
                 (seq 0 (N s2))) as [ps|e].
  - destruct H1 as (a & R1 & (X1 & Y1) & N1 & K1 & P1 & E1 & O1).
    destruct H2 as (b & R2 & (X2 & Y2) & N2 & K2 & P2 & E2 & O2).
    rewrite R1, R2. simpl. split.
    + unfold same_results. rewrite X1, X2, Y1, Y2, N1, N2, K1, K2, P1, P2, E1, E2.
      auto 10.
    + exists [Row k (classification_error a)]. split; [exact O1|].
      unfold printed. rewrite O2, E1, E2. reflexivity.
  - rewrite H1, H2. reflexivity.
Qed.

Lemma for_each_error_same (ks : list Z) :
  forall s1 s2, same_results s1 s2 ->
    same_outcome
      (fun a b => same_results a b /\
                  exists out, printed s1 a out /\ printed s2 b out)
      (for_each (error_for_K argsort) ks s1) (for_each (error_for_K argsort) ks s2).
Proof.
  induction ks as [|k ks IH]; intros s1 s2 Hs.
  - simpl. split; [exact Hs|]. exists []. unfold printed.
    rewrite !app_nil_r. auto.
  - cbn [for_each].
    destruct Hs as (Hx & Hy & HN & _).
    pose proof (error_for_K_same k s1 s2 Hx Hy HN) as H.
    destruct (error_for_K argsort k s1) as [a|e1], (error_for_K argsort k s2) as [b|e2];
      simpl in H; try contradiction; [|exact H].
    destruct H as (Hab & row & O1 & O2). cbn [bind].
    specialize (IH a b Hab).
    destruct (for_each (error_for_K argsort) ks a) as [a'|e1],
             (for_each (error_for_K argsort) ks b) as [b'|e2];
      simpl in IH |- *; try contradiction; [|exact IH].
    destruct IH as (Hab' & out & O1' & O2'). split; [exact Hab'|].
    exists (row ++ out). unfold printed in *.
    rewrite O1', O2', O1, O2, <- !app_assoc. auto.
Qed.

Lemma for_each_error_data (ks : list Z) :
  forall s s', for_each (error_for_K argsort) ks s = Ok s' -> same_data s s'.
Proof.
  induction ks as [|k ks IH]; intros s s' H.
  - injection H as <-. unfold same_data. auto.
  - cbn [for_each] in H. apply bind_Ok in H. destruct H as (a & Ha & H).
    pose proof (error_for_K_run argsort k s) as R.
    destruct (mapM _ _) as [ps|e] in R; [|congruence].
    destruct R as (a' & Ra & (X & Y) & _). rewrite Ha in Ra. injection Ra as <-.
    destruct (IH a s' H) as (X' & Y'). unfold same_data.
    rewrite X', Y', X, Y. auto.
Qed.

End TwoRuns.

(** C7: two runs of the training-error computation on notebooks that hold the
    same data end alike, whatever the other global variables held before:
    one round for the same K (N being the number of labels, as the cell sets
    it), and the whole cell, either raise the same exception in both notebooks
    or leave the same predictions and the same classification error and print
    the same lines; the cell leaves the data as it was. *)
Theorem training_error_deterministic argsort s1 s2 :
  x_training_selected s1 = x_training_selected s2 ->
  y_training s1 = y_training s2 ->
  (forall k, N s1 = length (y_training s1) -> N s2 = length (y_training s2) ->
     same_outcome
       (fun a b => same_results a b /\
                   exists out, printed s1 a out /\ printed s2 b out)
       (error_for_K argsort k s1) (error_for_K argsort k s2)) /\
  same_outcome
    (fun a b => same_results a b /\ same_data s1 a /\ same_data s2 b /\
                exists out, printed s1 a out /\ printed s2 b out)
    (training_error_cell argsort s1) (training_error_cell argsort s2).
Proof.
  intros Hx Hy. split.
  - intros k H1 H2. apply error_for_K_same; try assumption.
    rewrite H1, H2, Hy. reflexivity.
  - unfold training_error_cell.
    set (t1 := print Header (set_N (length (y_training s1)) s1)).
    set (t2 := print Header (set_N (length (y_training s2)) s2)).
    assert (Hks : arange 1 34 2 = 1%Z :: tl (arange 1 34 2)) by reflexivity.
    pose proof (for_each_error_data argsort (arange 1 34 2) t1) as D1.
    pose proof (for_each_error_data argsort (arange 1 34 2) t2) as D2.
    rewrite Hks in *. cbn [for_each] in *.
    assert (HN : N t1 = N t2) by (simpl; rewrite Hy; reflexivity).
    pose proof (error_for_K_same argsort 1 t1 t2 Hx Hy HN) as H.
    destruct (error_for_K argsort 1 t1) as [a|e1], (error_for_K argsort 1 t2) as [b|e2];
      simpl in H; try contradiction; [|exact H].
    destruct H as (Hab & row & O1 & O2). cbn [bind] in *.
    pose proof (for_each_error_same argsort (tl (arange 1 34 2)) a b Hab) as G.
    destruct (for_each (error_for_K argsort) (tl (arange 1 34 2)) a) as [a'|e1],
             (for_each (error_for_K argsort) (tl (arange 1 34 2)) b) as [b'|e2];
      simpl in G |- *; try contradiction; [|exact G].
    destruct G as (Hab' & out & O1' & O2').
    split; [exact Hab'|].
    split; [exact (D1 a' eq_refl)|]. split; [exact (D2 b' eq_refl)|].
    exists (Header :: row ++ out). unfold printed in *.
    rewrite O1', O2', O1, O2. simpl. rewrite <- !app_assoc. auto.
Qed.

Lemma training_error_deterministic_witness :
  same_outcome
    (fun a b => same_results a b /\
                exists out, printed (reused three_x three_y) a out /\
                            printed (set_N 3 (loaded three_x three_y)) b out)
    (error_for_K insertion_argsort 3 (reused three_x three_y))
    (error_for_K insertion_argsort 3 (set_N 3 (loaded three_x three_y))) /\
  same_outcome
    (fun a b => same_results a b /\
                same_data (reused three_x three_y) a /\
                same_data (set_N 3 (loaded three_x three_y)) b /\
                exists out, printed (reused three_x three_y) a out /\
                            printed (set_N 3 (loaded three_x three_y)) b out)
    (training_error_cell insertion_argsort (reused three_x three_y))
    (training_error_cell insertion_argsort (set_N 3 (loaded three_x three_y))).
Proof.
  pose proof (training_error_deterministic insertion_argsort
                (reused three_x three_y) (set_N 3 (loaded three_x three_y))
                eq_refl eq_refl) as H.
  split; [apply (proj1 H 3%Z); reflexivity | exact (proj2 H)].
Defined.

(** The cell run twice in a row prints its table twice. *)
Example training_error_cell_twice :
  (s' <- training_error_cell insertion_argsort (loaded three_x three_y) ;;
   s'' <- training_error_cell insertion_argsort s' ;; Ok (stdout s''))
  = (s' <- training_error_cell insertion_argsort (loaded three_x three_y) ;;
     Ok (stdout s' ++ stdout s')).
Proof. vm_compute. reflexivity. Qed.

(** *** The training error at K = 1 *)

Lemma ascending_head (d : list float) (j : nat) (rest : list nat) (i : nat) :
  ascending d (j :: rest) = true -> In i rest ->
  np_lt (dist_at d i) (dist_at d j) = false.
Proof.
  cbn [ascending]. intros H Hi.
  apply andb_true_iff in H. destruct H as (H & _).
  rewrite forallb_forall in H. specialize (H i Hi).
  apply negb_true_iff in H. exact H.
Qed.

(** An example nearer to itself than to the examples of other labels is
    given its own label by the nearest neighbour. *)
Lemma prediction_own_label argsort (x : ndarray2) (y : list Z) (i : nat) :
  argsort_permutes argsort -> rectangular x -> nrows x = length y ->
  i < length y ->
  own_label_nearest argsort x y i ->
  prediction argsort x y 1 i = Ok (nth i y 0%Z).
Proof.
  intros Hp Hr Hn Hi Hown.
  assert (Hy : y <> []) by (intros ->; simpl in Hi; lia).
  assert (Hi' : i < nrows x) by (rewrite Hn; exact Hi).
  destruct (rectangular_row x i Hr Hi') as (G & L).
  unfold prediction. rewrite G. cbn [bind].
  destruct (KNN_one argsort Hp x y (nth i (rows x) []) L Hn Hy)
    as (d & j & l & Hd & Hj & Hl & _ & HK & _).
  rewrite HK. f_equal.
  destruct (Hown d Hd) as (Hasc & Hnear).
  assert (Hjy : j < length y /\ l = nth j y 0%Z).
  { unfold getitem in Hl. destruct (nth_error y j) eqn:E; [|discriminate].
    injection Hl as <-. split; [apply nth_error_Some; congruence|].
    symmetry. apply nth_error_nth, E. }
  destruct Hjy as (Hjlt & ->).
  destruct (Z.eq_dec (nth j y 0%Z) (nth i y 0%Z)) as [Heq|Hneq]; [exact Heq|].
  exfalso.
  specialize (Hnear j Hjlt Hneq).
  destruct (argsort d) as [|j' rest] eqn:E; [discriminate|].
  injection Hj as ->.
  assert (Hin : In i (j :: rest)).
  { rewrite <- E. apply (Permutation_in _ (Permutation_sym (Hp d))).
    apply in_seq. rewrite (distances_length _ _ _ Hd). lia. }
  destruct Hin as [->|Hin]; [congruence|].
  pose proof (ascending_head d j rest i Hasc Hin) as F.
  unfold np_lt in F. rewrite Hnear in F. discriminate.
Qed.

(** C1, as the code has it: on a non-empty rectangular dataset with as many
    labels as rows in which every example is strictly nearer to itself than
    to every example of another label, the round of the sweep for K = 1
    predicts every example's own label and stores the training error 0. *)
Theorem training_error_zero_at_K1 argsort s :
  argsort_permutes argsort ->
  rectangular (x_training_selected s) ->
  nrows (x_training_selected s) = length (y_training s) ->
  y_training s <> [] ->
  N s = length (y_training s) ->
  (forall i, i < length (y_training s) ->
     own_label_nearest argsort (x_training_selected s) (y_training s) i) ->
  exists s',
    error_for_K argsort 1 s = Ok s' /\
    (forall i, i < N s ->
       prediction argsort (x_training_selected s) (y_training s) 1 i
       = Ok (nth i (y_training s) 0%Z)) /\
    y_prediction s' = y_training s /\
    classification_error s' = Quotient (0 # Pos.of_nat (N s)) /\
    printed s s' [Row 1 (Quotient (0 # Pos.of_nat (N s)))].
Proof.
  intros Hp Hr Hn Hy HN Hown.
  assert (Hpred : forall i, i < N s ->
            prediction argsort (x_training_selected s) (y_training s) 1 i
            = Ok (nth i (y_training s) 0%Z)).
  { intros i Hi. rewrite HN in Hi. apply prediction_own_label; auto. }
  pose proof (error_for_K_run argsort 1 s) as H.
  rewrite (mapM_pure _ (fun i => nth i (y_training s) 0%Z)) in H
    by (intros i Hi; apply in_seq in Hi; apply Hpred; lia).
  rewrite HN, map_nth_seq in H.
  destruct H as (s' & R & _ & _ & _ & Y & E & O).
  assert (HN0 : 0 < length (y_training s))
    by (destruct (y_training s); [congruence | simpl; lia]).
  rewrite count_mismatches_same, (true_divide_quotient _ _ HN0) in E.
  exists s'. rewrite HN.
  split; [exact R|]. split; [rewrite <- HN; exact Hpred|].
  split; [exact Y|]. split; [exact E|].
  unfold printed. rewrite O, E. reflexivity.
Qed.

Lemma own_label_nearest_three (i : nat) :
  i < length three_y -> own_label_nearest insertion_argsort three_x three_y i.
Proof.
  intros Hi d Hd.
  destruct i as [|[|[|i]]]; [| | |simpl in Hi; lia];
    vm_compute in Hd; injection Hd as <-;
    (split; [vm_compute; reflexivity|]);
    intros [|[|[|m]]] Hm Hneq; simpl in Hm, Hneq;
    try lia; try congruence; vm_compute; reflexivity.
Defined.

Lemma training_error_zero_at_K1_witness :
  exists s',
    error_for_K insertion_argsort 1 (set_N 3 (loaded three_x three_y)) = Ok s' /\
    (forall i, i < 3 ->
       prediction insertion_argsort three_x three_y 1 i = Ok (nth i three_y 0%Z)) /\
    y_prediction s' = three_y /\
    classification_error s' = Quotient (0 # Pos.of_nat 3) /\
    printed (set_N 3 (loaded three_x three_y)) s' [Row 1 (Quotient (0 # Pos.of_nat 3))].
Proof.
  apply (training_error_zero_at_K1 insertion_argsort (set_N 3 (loaded three_x three_y))).
  - apply insertion_argsort_permutes.
  - repeat constructor.
  - reflexivity.
  - discriminate.
  - reflexivity.
  - exact own_label_nearest_three.
Defined.

(** With K = 3 = N the third of the three examples, of label 1, is outvoted
    by the two examples of label 0, and the training error is 1/3; with K = 1
    the second of two examples with the same features and different labels
    is given the label of the first, and the training error is 1/2. *)
Lemma training_error_not_zero :
  ((1 <= 3 <= Z.of_nat (length three_y))%Z /\
   prediction insertion_argsort three_x three_y 3 2 = Ok 0%Z /\
   nth 2 three_y 0%Z = 1%Z /\
   exists s',
     error_for_K insertion_argsort 3 (set_N 3 (loaded three_x three_y)) = Ok s' /\
     classification_error s' = Quotient (1 # 3)) /\
  ((1 <= 1 <= Z.of_nat (length twin_y))%Z /\
   prediction insertion_argsort twin_x twin_y 1 1 = Ok 0%Z /\
   nth 1 twin_y 0%Z = 1%Z /\
   exists s',
     error_for_K insertion_argsort 1 (set_N 2 (loaded twin_x twin_y)) = Ok s' /\
     classification_error s' = Quotient (1 # 2)).
Proof.
  split; (split; [simpl; lia|]); (split; [vm_compute; reflexivity|]);
    (split; [reflexivity|]); eexists; (split; [vm_compute; reflexivity|]); reflexivity.
Qed.

(** The whole cell on the three examples: the error is 0 for K = 1 and 1/3
    for every larger K of the sweep. *)
Example training_error_cell_three :
  exists s',
    training_error_cell insertion_argsort (loaded three_x three_y) = Ok s' /\
    stdout s' = Header :: Row 1 (Quotient (0 # 3))
                  :: map (fun k => Row k (Quotient (1 # 3))) (arange 3 34 2).
Proof. eexists. split; [vm_compute; reflexivity | reflexivity]. Qed.

(** * Further properties of the classifier *)

Lemma mapM_all_raise {A B : Type} (f : A -> result B) (e : exn) (l : list A) :
  l <> [] -> (forall a, f a = Raise e) -> mapM f l = Raise e.
Proof.
  destruct l as [|a l]; [congruence|]. intros _ H. simpl. rewrite H. reflexivity.
Qed.

Lemma take_outcome {A : Type} (dflt : A) (l : list A) (idx : list nat) :
  match take l idx with
  | Ok nb => Forall (fun j => j < length l) idx /\ nb = map (fun j => nth j l dflt) idx
  | Raise e => e = IndexError /\ Exists (fun j => length l <= j) idx
  end.
Proof.
  unfold take. induction idx as [|j idx IH]; simpl.
  - split; [constructor | reflexivity].
  - unfold getitem at 1. destruct (nth_error l j) as [a|] eqn:E; simpl.
    + assert (Hj : j < length l) by (apply nth_error_Some; congruence).
      destruct (mapM (getitem l) idx) as [nb|e]; simpl.
      * destruct IH as (F & ->). split; [constructor; assumption|].
        f_equal. symmetry. apply nth_error_nth, E.
      * destruct IH as (-> & X). split; [reflexivity | apply Exists_cons_tl, X].
    + split; [reflexivity|]. apply Exists_cons_hd, nth_error_None, E.
Qed.

Lemma distances_raise (x : ndarray2) (xq : list float) (e : exn) :
  distances x xq = Raise e -> e = ValueError.
Proof.
  unfold distances, broadcast_sub.
  destruct (ncols x =? length xq); [discriminate|].
  destruct (length xq =? 1); [discriminate|].
  destruct (ncols x =? 1); [discriminate|].
  simpl. congruence.
Qed.

(** X1: what each outcome of [KNN] means.  It returns a label exactly when
    [x - x_q] broadcasts, [y] is not empty and every index among the first K
    of the sort is an index of [y]; it raises ValueError exactly when the
    shapes do not broadcast or [y] is empty; it raises IndexError exactly
    when the shapes broadcast, [y] is not empty and one of the first K
    indices is beyond [y]. *)
Theorem KNN_outcome argsort x y xq k :
  match KNN argsort x y xq k with
  | Ok l =>
      exists d, distances x xq = Ok d /\ y <> [] /\
                Forall (fun j => j < length y) (slice0 (argsort d) k)
  | Raise ValueError => distances x xq = Raise ValueError \/ y = []
  | Raise IndexError =>
      exists d, distances x xq = Ok d /\ y <> [] /\
                Exists (fun j => length y <= j) (slice0 (argsort d) k)
  end.
Proof.
  destruct (distances x xq) as [d|e] eqn:Hd.
  - destruct y as [|a y].
    + unfold KNN. rewrite Hd. simpl. right. reflexivity.
    + assert (Hy : a :: y <> []) by discriminate.
      pose proof (take_outcome 0%Z (a :: y) (slice0 (argsort d) k)) as T.
      destruct (take (a :: y) (slice0 (argsort d) k)) as [nb|e] eqn:Hnb.
      * rewrite (KNN_winner argsort x (a :: y) xq d k nb Hd Hnb Hy).
        exists d. split; [reflexivity|]. split; [exact Hy | apply T].
      * destruct T as (-> & X). unfold KNN. rewrite Hd. cbn [bind].
        rewrite (mapM_all_raise _ IndexError)
          by (try apply unique_nonempty, Hy; intros; rewrite Hnb; reflexivity).
        cbn [bind]. exists d. auto.
  - pose proof (distances_raise x xq e Hd) as ->.
    unfold KNN. rewrite Hd. simpl. left. reflexivity.
Qed.

Lemma KNN_index_error argsort x y xq d k :
  distances x xq = Ok d -> y <> [] ->
  Exists (fun j => length y <= j) (slice0 (argsort d) k) ->
  KNN argsort x y xq k = Raise IndexError.
Proof.
  intros Hd Hy X.
  pose proof (take_outcome 0%Z y (slice0 (argsort d) k)) as T.
  destruct (take y (slice0 (argsort d) k)) as [nb|e] eqn:Hnb.
  - destruct T as (F & _). rewrite Forall_forall in F.
    apply Exists_exists in X. destruct X as (j & Hj & Hle).
    specialize (F j Hj). lia.
  - destruct T as (-> & _). unfold KNN. rewrite Hd. cbn [bind].
    rewrite (mapM_all_raise _ IndexError)
      by (try apply unique_nonempty, Hy; intros; rewrite Hnb; reflexivity).
    reflexivity.
Qed.

(** X2: with fewer labels than rows (and at least one label), a query of the
    dataset's dimension and K at least the number of rows, [KNN] raises
    IndexError: the vote reaches a row that has no label. *)
Theorem KNN_too_few_labels argsort x y xq k :
  argsort_permutes argsort ->
  length xq = ncols x -> y <> [] ->
  length y < nrows x -> (Z.of_nat (nrows x) <= k)%Z ->
  KNN argsort x y xq k = Raise IndexError.
Proof.
  intros Hp Hdim Hy Hlt Hk.
  destruct (distances_same_dim x xq Hdim) as (d & Hd).
  pose proof (distances_length _ _ _ Hd) as Hlen.
  apply (KNN_index_error argsort x y xq d k Hd Hy).
  rewrite slice0_all by (rewrite (permutes_length argsort d Hp), Hlen; exact Hk).
  apply Exists_exists. exists (nrows x - 1). split; [|cbv beta; lia].
  apply (Permutation_in _ (Permutation_sym (Hp d))), in_seq. lia.
Qed.

Lemma KNN_too_few_labels_witness :
  KNN insertion_argsort three_x [0; 1]%Z [1; 1]%float 3 = Raise IndexError.
Proof.
  apply (KNN_too_few_labels insertion_argsort three_x [0; 1]%Z [1; 1]%float 3).
  - apply insertion_argsort_permutes.
  - reflexivity.
  - discriminate.
  - unfold nrows. simpl. lia.
  - unfold nrows. simpl. lia.
Defined.

(** *** How many votes the returned label has *)

Lemma count_label_cons (e : Z) (nb : list Z) (a : Z) :
  count_label (e :: nb) a = (if Z.eq_dec e a then 1 else 0) + count_label nb a.
Proof. unfold count_label. simpl. destruct (Z.eq_dec e a); reflexivity. Qed.

Lemma count_label_split (nb : list Z) (a : Z) :
  length nb = count_label nb a + length (filter (fun e => negb (e =? a)%Z) nb).
Proof.
  induction nb as [|e nb IH]; [reflexivity|].
  rewrite count_label_cons. cbn [filter length].
  destruct (Z.eq_dec e a) as [->|Hne].
  - rewrite Z.eqb_refl. simpl. lia.
  - apply Z.eqb_neq in Hne. rewrite Hne. simpl. lia.
Qed.

Lemma count_label_filter (nb : list Z) (a b : Z) :
  b <> a -> count_label (filter (fun e => negb (e =? a)%Z) nb) b = count_label nb b.
Proof.
  intros Hb. induction nb as [|e nb IH]; [reflexivity|].
  cbn [filter]. rewrite count_label_cons.
  destruct (Z.eqb_spec e a) as [->|Hne]; cbn [negb].
  - destruct (Z.eq_dec a b); [congruence | exact IH].
  - rewrite count_label_cons, IH. reflexivity.
Qed.

(** Votes shared among the labels of [labels]: one of them has at least its
    share. *)
Lemma votes_bound (labels : list Z) :
  forall (nb : list Z) (m : nat),
    incl nb labels -> (forall a, In a labels -> count_label nb a <= m) ->
    length nb <= m * length labels.
Proof.
  induction labels as [|a labels IH]; intros nb m Hincl Hm.
  - destruct nb as [|e nb]; [simpl; lia|]. destruct (Hincl e (or_introl eq_refl)).
  - rewrite (count_label_split nb a). cbn [length].
    pose proof (Hm a (or_introl eq_refl)) as Ha.
    assert (length (filter (fun e => negb (e =? a)%Z) nb) <= m * length labels).
    { apply IH.
      - intros e He. apply filter_In in He. destruct He as (He & Hne).
        apply negb_true_iff, Z.eqb_neq in Hne.
        destruct (Hincl e He) as [<-|Hin]; [congruence | exact Hin].
      - intros b Hb. destruct (Z.eq_dec b a) as [->|Hne].
        + unfold count_label.
          rewrite (proj1 (count_occ_not_In Z.eq_dec _ a)); [lia|].
          intros Hin. apply filter_In in Hin. destruct Hin as (_ & Hin).
          rewrite Z.eqb_refl in Hin. discriminate.
        + rewrite count_label_filter by exact Hne. apply Hm. right. exact Hb. }
    lia.
Qed.

Lemma count_label_two (nb : list Z) (a b : Z) :
  a <> b -> count_label nb a + count_label nb b <= length nb.
Proof.
  intros Hab. induction nb as [|e nb IH]; [simpl; lia|].
  rewrite !count_label_cons. cbn [length].
  destruct (Z.eq_dec e a), (Z.eq_dec e b); try congruence; lia.
Qed.

Lemma count_label_among_two (nb : list Z) (a b : Z) :
  (forall e, In e nb -> e = a \/ e = b) ->
  length nb <= count_label nb a + count_label nb b.
Proof.
  induction nb as [|e nb IH]; intros H; [simpl; lia|].
  rewrite !count_label_cons. cbn [length].
  assert (length nb <= count_label nb a + count_label nb b)
    by (apply IH; intros; apply H; right; assumption).
  destruct (H e (or_introl eq_refl)) as [->| ->].
  - destruct (Z.eq_dec a a); [lia | congruence].
  - destruct (Z.eq_dec b b); [|congruence]. destruct (Z.eq_dec b a); lia.
Qed.

Lemma slice0_length {A : Type} (l : list A) (k : Z) :
  (0 <= k <= Z.of_nat (length l))%Z -> length (slice0 l k) = Z.to_nat k.
Proof.
  intros H. unfold slice0, slice_stop. rewrite length_firstn.
  destruct (k <? 0)%Z eqn:E; lia.
Qed.

(** X3: on a dataset of N labelled examples, a query of its dimension and
    1 <= K <= N, the label [KNN] returns is the label of one of the K nearest
    neighbours, and it has at least its share of the K votes: K is at most
    its count times the number of distinct labels of [y]. *)
Theorem KNN_label_has_its_share argsort x y xq k :
  argsort_permutes argsort ->
  length xq = ncols x -> nrows x = length y ->
  (1 <= k <= Z.of_nat (length y))%Z ->
  exists d nb l,
    distances x xq = Ok d /\ neighbours argsort y d k = Ok nb /\
    KNN argsort x y xq k = Ok l /\
    In l nb /\
    Z.to_nat k <= count_label nb l * length (unique y).
Proof.
  intros Hp Hdim Hn Hk.
  assert (Hy : y <> []) by (intros ->; simpl in Hk; lia).
  destruct (KNN_returns argsort Hp x y xq k Hdim Hn Hy) as (d & Hd & Hlen & Hnb & HK).
  set (nb := map (fun j => nth j y 0%Z) (slice0 (argsort d) k)) in *.
  assert (Hincl : incl nb y) by (eapply neighbours_incl; eauto).
  destruct (vote_spec nb y Hy Hincl) as (_ & V2 & _).
  set (w := winner (count_label nb) (unique y)) in *.
  assert (Hlnb : length nb = Z.to_nat k).
  { unfold nb. rewrite length_map. apply slice0_length.
    rewrite (permutes_length argsort d Hp), Hlen. lia. }
  assert (Hshare : length nb <= count_label nb w * length (unique y)).
  { apply votes_bound; [|intros; apply V2].
    intros e He. apply unique_In, Hincl, He. }
  exists d, nb, w. repeat split; auto; [|lia].
  apply count_label_In.
  destruct (count_label nb w); [simpl in Hshare; lia | lia].
Qed.

Lemma KNN_label_has_its_share_witness :
  exists d nb l,
    distances line_x [9; 9]%float = Ok d /\
    neighbours insertion_argsort line_y d 3 = Ok nb /\
    KNN insertion_argsort line_x line_y [9; 9]%float 3 = Ok l /\
    In l nb /\
    Z.to_nat 3 <= count_label nb l * length (unique line_y).
Proof.
  apply (KNN_label_has_its_share insertion_argsort line_x line_y [9; 9]%float 3).
  - apply insertion_argsort_permutes.
  - reflexivity.
  - reflexivity.
  - simpl. lia.
Defined.

(** X4: a label that has more than half of the votes of the neighbourhood
    [y[i[0:K]]] is the label [KNN] returns, whatever the other labels are. *)
Theorem KNN_strict_majority argsort x y xq k d nb g :
  distances x xq = Ok d ->
  neighbours argsort y d k = Ok nb ->
  length nb < 2 * count_label nb g ->
  KNN argsort x y xq k = Ok g.
Proof.
  intros Hd Hnb Hg.
  assert (Hincl : incl nb y) by (eapply neighbours_incl; eauto).
  assert (Hgnb : In g nb) by (apply count_label_In; lia).
  assert (Hy : y <> []) by (intros ->; destruct (Hincl g Hgnb)).
  rewrite (KNN_winner argsort x y xq d k nb Hd Hnb Hy). f_equal.
  destruct (vote_spec nb y Hy Hincl) as (_ & V2 & _).
  set (w := winner (count_label nb) (unique y)) in *.
  destruct (Z.eq_dec w g) as [E|E]; [exact E|].
  pose proof (count_label_two nb w g E). specialize (V2 g). lia.
Qed.

Lemma KNN_strict_majority_witness :
  KNN insertion_argsort three_x three_y [10; 10]%float 3 = Ok 0%Z.
Proof.
  eapply (KNN_strict_majority insertion_argsort three_x three_y [10; 10]%float 3).
  - vm_compute. reflexivity.
  - vm_compute. reflexivity.
  - simpl. lia.
Defined.

(** X5: with at most two distinct labels in [y] (occupied or not) and an odd
    K, 1 <= K <= N, the vote is never tied: the label [KNN] returns has more
    than half of the K votes. *)
Theorem KNN_odd_K_two_labels argsort x y xq k a b :
  argsort_permutes argsort ->
  length xq = ncols x -> nrows x = length y ->
  (forall e, In e y -> e = a \/ e = b) ->
  (1 <= k <= Z.of_nat (length y))%Z -> Z.odd k = true ->
  exists d nb l,
    distances x xq = Ok d /\ neighbours argsort y d k = Ok nb /\
    KNN argsort x y xq k = Ok l /\
    Z.to_nat k < 2 * count_label nb l /\
    (forall l', l' <> l -> count_label nb l' < count_label nb l).
Proof.
  intros Hp Hdim Hn Hab Hk Hodd.
  assert (Hy : y <> []) by (intros ->; simpl in Hk; lia).
  destruct (KNN_returns argsort Hp x y xq k Hdim Hn Hy) as (d & Hd & Hlen & Hnb & HK).
  set (nb := map (fun j => nth j y 0%Z) (slice0 (argsort d) k)) in *.
  assert (Hincl : incl nb y) by (eapply neighbours_incl; eauto).
  destruct (vote_spec nb y Hy Hincl) as (_ & V2 & _).
  set (w := winner (count_label nb) (unique y)) in *.
  assert (Hlnb : length nb = Z.to_nat k).
  { unfold nb. rewrite length_map. apply slice0_length.
    rewrite (permutes_length argsort d Hp), Hlen. lia. }
  assert (H2 : length nb <= count_label nb a + count_label nb b)
    by (apply count_label_among_two; intros; apply Hab, Hincl; assumption).
  assert (Hhalf : Z.to_nat k < 2 * count_label nb w).
  { pose proof (V2 a). pose proof (V2 b).
    assert (Z.to_nat k <> 2 * count_label nb w); [|lia].
    intros E. rewrite Z.odd_spec in Hodd. destruct Hodd as (m & Hm).
    apply (f_equal Z.of_nat) in E. rewrite Z2Nat.id in E by lia. lia. }
  exists d, nb, w. repeat split; auto.
  intros l' Hl'. pose proof (count_label_two nb l' w Hl'). lia.
Qed.

Lemma KNN_odd_K_two_labels_witness :
  exists d nb l,
    distances line_x [9; 9]%float = Ok d /\
    neighbours insertion_argsort line_y d 3 = Ok nb /\
    KNN insertion_argsort line_x line_y [9; 9]%float 3 = Ok l /\
    Z.to_nat 3 < 2 * count_label nb l /\
    (forall l', l' <> l -> count_label nb l' < count_label nb l).
Proof.
  apply (KNN_odd_K_two_labels insertion_argsort line_x line_y [9; 9]%float 3 0%Z 1%Z).
  - apply insertion_argsort_permutes.
  - reflexivity.
  - reflexivity.
  - simpl. intros e H. intuition.
  - simpl. lia.
  - reflexivity.
Defined.

(** *** The order among the K nearest *)

Lemma mapM_ext {A B : Type} (f g : A -> result B) (l : list A) :
  (forall a, f a = g a) -> mapM f l = mapM g l.
Proof.
  intros H. induction l as [|a l IH]; simpl; [reflexivity|].
  rewrite H, IH. reflexivity.
Qed.

Lemma Exists_not_Forall_lt (n : nat) (idx : list nat) :
  Exists (fun j => n <= j) idx -> Forall (fun j => j < n) idx -> False.
Proof.
  intros X F. apply Exists_exists in X. destruct X as (j & Hj & Hle).
  rewrite Forall_forall in F. specialize (F j Hj). lia.
Qed.

(** Votes counted along two orders of the same indices are the same. *)
Lemma take_count_permutation (y : list Z) (idx1 idx2 : list nat) (lbl : Z) :
  Permutation idx1 idx2 ->
  (nb <- take y idx1 ;; Ok (count_label nb lbl))
  = (nb <- take y idx2 ;; Ok (count_label nb lbl)).
Proof.
  intros P.
  pose proof (take_outcome 0%Z y idx1) as T1.
  pose proof (take_outcome 0%Z y idx2) as T2.
  destruct (take y idx1) as [nb1|e1], (take y idx2) as [nb2|e2]; cbn [bind].
  - destruct T1 as (_ & ->), T2 as (_ & ->). f_equal.
    apply count_label_permutation, Permutation_map, P.
  - destruct T1 as (F & _), T2 as (_ & X). exfalso.
    apply (Exists_not_Forall_lt (length y) idx2 X).
    rewrite Forall_forall in *. intros j Hj.
    apply F, (Permutation_in _ (Permutation_sym P)), Hj.
  - destruct T1 as (_ & X), T2 as (F & _). exfalso.
    apply (Exists_not_Forall_lt (length y) idx1 X).
    rewrite Forall_forall in *. intros j Hj.
    apply F, (Permutation_in _ P), Hj.
  - destruct T1 as (-> & _), T2 as (-> & _). reflexivity.
Qed.

(** X6: [KNN] does not depend on the order in which the sort hands back the K
    nearest indices: two sorts whose first K indices are the same up to order
    give the same outcome, label or exception. *)
Theorem KNN_order_among_nearest argsort1 argsort2 x y xq k :
  (forall d, distances x xq = Ok d ->
     Permutation (slice0 (argsort1 d) k) (slice0 (argsort2 d) k)) ->
  KNN argsort1 x y xq k = KNN argsort2 x y xq k.
Proof.
  intros H. unfold KNN. destruct (distances x xq) as [d|e]; [|reflexivity].
  cbn [bind]. specialize (H d eq_refl).
  rewrite (mapM_ext _ (fun lbl => nb <- take y (slice0 (argsort2 d) k) ;;
                                  Ok (count_label nb lbl)));
    [reflexivity|].
  intros lbl. apply take_count_permutation, H.
Qed.

Lemma KNN_order_among_nearest_witness :
  KNN insertion_argsort line_x line_y [0; 0]%float 2
  = KNN swapped_argsort line_x line_y [0; 0]%float 2.
Proof.
  apply (KNN_order_among_nearest insertion_argsort swapped_argsort).
  intros d Hd. vm_compute in Hd. injection Hd as <-.
  vm_compute. apply perm_swap.
Defined.

(** * Further properties of the training-error cell *)

Lemma winner_ext (f g : Z -> nat) (labels : list Z) :
  (forall l, f l = g l) -> winner f labels = winner g labels.
Proof.
  intros H. unfold winner. rewrite (map_ext f g H). reflexivity.
Qed.

(** With K at least N every query of the dataset's dimension gets the label
    that wins the vote of all of [y]. *)
Lemma KNN_beyond argsort x y xq k :
  argsort_permutes argsort ->
  length xq = ncols x -> nrows x = length y -> y <> [] ->
  (Z.of_nat (length y) <= k)%Z ->
  KNN argsort x y xq k = Ok (winner (count_label y) (unique y)).
Proof.
  intros Hp Hdim Hn Hy Hk.
  destruct (KNN_returns argsort Hp x y xq k Hdim Hn Hy) as (d & Hd & Hlen & _ & HK).
  rewrite HK. f_equal. apply winner_ext. intros l.
  apply count_label_permutation, neighbours_all; assumption.
Qed.

Lemma map_const_seq {A : Type} (a : A) (n m : nat) :
  map (fun _ => a) (seq n m) = repeat a m.
Proof.
  revert n. induction m as [|m IH]; intros n; simpl; [reflexivity|].
  rewrite IH. reflexivity.
Qed.

Lemma count_mismatches_repeat (y : list Z) (g : Z) :
  count_mismatches y (repeat g (length y)) = length y - count_label y g.
Proof.
  unfold count_mismatches. induction y as [|a y IH]; [reflexivity|].
  cbn [length repeat combine filter fst snd]. rewrite count_label_cons.
  pose proof (count_occ_bound Z.eq_dec g y) as B. fold (count_label y g) in B.
  destruct (Z.eq_dec a g) as [->|Hne].
  - rewrite Z.eqb_refl. cbn [negb]. rewrite IH. lia.
  - apply Z.eqb_neq in Hne. rewrite Hne. cbn [negb length]. rewrite IH. lia.
Qed.

(** X7: on a non-empty rectangular dataset with as many labels as rows, a
    round of the sweep with K >= N predicts one and the same label for every
    example, the majority label of [y] (the smallest of the most frequent),
    and the training error is the share of the examples of the other
    labels. *)
Theorem error_for_K_beyond_dataset argsort s k :
  argsort_permutes argsort ->
  rectangular (x_training_selected s) ->
  nrows (x_training_selected s) = length (y_training s) ->
  y_training s <> [] ->
  N s = length (y_training s) ->
  (Z.of_nat (N s) <= k)%Z ->
  exists s' g,
    error_for_K argsort k s = Ok s' /\
    y_prediction s' = repeat g (N s) /\
    In g (y_training s) /\
    (forall l, count_label (y_training s) l <= count_label (y_training s) g) /\
    (forall l, In l (y_training s) ->
       count_label (y_training s) l = count_label (y_training s) g -> (g <= l)%Z) /\
    classification_error s'
    = Quotient (Z.of_nat (N s - count_label (y_training s) g) # Pos.of_nat (N s)).
Proof.
  intros Hp Hr Hn Hy HN Hk.
  set (g := winner (count_label (y_training s)) (unique (y_training s))).
  destruct (vote_spec (y_training s) (y_training s) Hy (incl_refl _)) as (V1 & V2 & V3).
  fold g in V1, V2, V3.
  pose proof (error_for_K_run argsort k s) as H.
  rewrite (mapM_pure _ (fun _ => g)) in H.
  - rewrite map_const_seq in H.
    destruct H as (s' & R & _ & _ & _ & Y & E & _).
    assert (HN0 : 0 < N s)
      by (rewrite HN; destruct (y_training s); [congruence | simpl; lia]).
    rewrite (true_divide_quotient _ _ HN0) in E.
    rewrite HN in E at 1. rewrite count_mismatches_repeat, <- HN in E.
    exists s', g. auto 10.
  - intros i Hi. apply in_seq in Hi.
    assert (Hi' : i < nrows (x_training_selected s)) by lia.
    destruct (rectangular_row _ i Hr Hi') as (G & L).
    unfold prediction. rewrite G. cbn [bind].
    apply KNN_beyond; auto. lia.
Qed.

Lemma error_for_K_beyond_dataset_witness :
  exists s' g,
    error_for_K insertion_argsort 5 (set_N 3 (loaded three_x three_y)) = Ok s' /\
    y_prediction s' = repeat g 3 /\
    In g three_y /\
    (forall l, count_label three_y l <= count_label three_y g) /\
    (forall l, In l three_y -> count_label three_y l = count_label three_y g -> (g <= l)%Z) /\
    classification_error s'
    = Quotient (Z.of_nat (3 - count_label three_y g) # Pos.of_nat 3).
Proof.
  apply (error_for_K_beyond_dataset insertion_argsort (set_N 3 (loaded three_x three_y)) 5).
  - apply insertion_argsort_permutes.
  - repeat constructor.
  - reflexivity.
  - discriminate.
  - reflexivity.
  - simpl. lia.
Defined.

Lemma last_cons_cons {A : Type} (a b : A) (l : list A) (dflt : A) :
  last (a :: b :: l) dflt = last (b :: l) dflt.
Proof. reflexivity. Qed.

Lemma last_default {A : Type} (l : list A) (a dflt : A) :
  last (a :: l) dflt = last l a.
Proof.
  revert a dflt. induction l as [|b l IH]; intros a dflt; [reflexivity|].
  rewrite last_cons_cons, !IH. reflexivity.
Qed.

Section Sweep.

Variable argsort : list float -> list nat.
Hypothesis argsort_perm : argsort_permutes argsort.

Lemma error_for_K_row (k : Z) (s : notebook) :
  rectangular (x_training_selected s) ->
  nrows (x_training_selected s) = length (y_training s) ->
  y_training s <> [] ->
  N s = length (y_training s) ->
  exists s' r,
    error_for_K argsort k s = Ok s' /\
    row_for argsort (x_training_selected s) (y_training s) k r /\
    printed s s' [r] /\ same_data s s' /\ N s' = N s /\ K s' = k.
Proof.
  intros Hr Hn Hy HN.
  pose proof (error_for_K_run argsort k s) as H.
  destruct (mapM_total (prediction argsort (x_training_selected s) (y_training s) k)
                       (seq 0 (N s))) as (ps & Hps).
  { intros i Hi. apply in_seq in Hi. apply prediction_returns; auto. lia. }
  rewrite Hps in H. destruct H as (s' & R & D & N' & K' & _ & E & O).
  destruct (mapM_Ok_nth _ 0 0%Z _ _ Hps) as (L & _). rewrite length_seq in L.
  assert (HN0 : 0 < N s)
    by (rewrite HN; destruct (y_training s); [congruence | simpl; lia]).
  rewrite (true_divide_quotient _ _ HN0) in E.
  rewrite count_mismatches_misclassified in E by (rewrite L; exact HN).
  destruct (quotient_in_unit_interval (misclassified (y_training s) ps) (N s) HN0)
    as (Q0 & Q1).
  { rewrite <- count_mismatches_misclassified by (rewrite L; exact HN).
    rewrite HN. apply count_mismatches_le. }
  exists s', (Row k (classification_error s')).
  split; [exact R|]. split.
  - exists ps, (Z.of_nat (misclassified (y_training s) ps) # Pos.of_nat (N s))%Q.
    rewrite <- HN. rewrite E. auto 10.
  - auto.
Qed.

Lemma for_each_error_rows (ks : list Z) :
  forall s,
    rectangular (x_training_selected s) ->
    nrows (x_training_selected s) = length (y_training s) ->
    y_training s <> [] ->
    N s = length (y_training s) ->
    exists s' rs,
      for_each (error_for_K argsort) ks s = Ok s' /\
      Forall2 (row_for argsort (x_training_selected s) (y_training s)) ks rs /\
      printed s s' rs /\ same_data s s' /\ N s' = N s /\ K s' = last ks (K s).
Proof.
  induction ks as [|k ks IH]; intros s Hr Hn Hy HN.
  - exists s, []. simpl. unfold printed, same_data. rewrite app_nil_r. auto 10.
  - destruct (error_for_K_row k s Hr Hn Hy HN) as (s1 & r & R & Hrow & O & (X & Y) & N1 & K1).
    destruct (IH s1) as (s' & rs & R' & F & O' & (X' & Y') & N' & K');
      try (rewrite ?X, ?Y, ?N1; assumption).
    exists s', (r :: rs). cbn [for_each]. rewrite R. cbn [bind].
    split; [exact R'|]. split.
    + constructor; [exact Hrow|]. rewrite X, Y in F. exact F.
    + unfold printed, same_data in *.
      rewrite O', O, X', Y', X, Y, N', N1, K', K1, last_default, <- app_assoc. auto 10.
Qed.

End Sweep.

(** X8: on a non-empty rectangular dataset with as many labels as rows the
    training-error cell raises nothing; it prints the header and then, for
    each K = 1, 3, ..., 33 in this order, K with the share of the examples
    misclassified with that K, a rational of [[0, 1]]; it leaves the data as
    it was, [N] at the number of examples and [K] at 33. *)
Theorem training_error_cell_table argsort s :
  argsort_permutes argsort ->
  rectangular (x_training_selected s) ->
  nrows (x_training_selected s) = length (y_training s) ->
  y_training s <> [] ->
  exists s' rs,
    training_error_cell argsort s = Ok s' /\
    printed s s' (Header :: rs) /\
    Forall2 (row_for argsort (x_training_selected s) (y_training s))
            [1; 3; 5; 7; 9; 11; 13; 15; 17; 19; 21; 23; 25; 27; 29; 31; 33]%Z rs /\
    same_data s s' /\ N s' = length (y_training s) /\ K s' = 33%Z.
Proof.
  intros Hp Hr Hn Hy. unfold training_error_cell.
  set (s0 := print Header (set_N (length (y_training s)) s)).
  destruct (for_each_error_rows argsort Hp (arange 1 34 2) s0 Hr Hn Hy eq_refl)
    as (s' & rs & R & F & O & D & N' & K').
  exists s', rs. split; [exact R|].
  unfold printed in *. rewrite O. simpl stdout. rewrite <- app_assoc.
  split; [reflexivity|]. split; [exact F|]. split; [exact D|].
  split; [exact N' | exact K'].
Qed.

Lemma training_error_cell_table_witness :
  exists s' rs,
    training_error_cell insertion_argsort (loaded three_x three_y) = Ok s' /\
    printed (loaded three_x three_y) s' (Header :: rs) /\
    Forall2 (row_for insertion_argsort three_x three_y)
            [1; 3; 5; 7; 9; 11; 13; 15; 17; 19; 21; 23; 25; 27; 29; 31; 33]%Z rs /\
    same_data (loaded three_x three_y) s' /\ N s' = length three_y /\ K s' = 33%Z.
Proof.
  apply (training_error_cell_table insertion_argsort (loaded three_x three_y)).
  - apply insertion_argsort_permutes.
  - repeat constructor.
  - reflexivity.
  - discriminate.
Defined.

Lemma for_each_error_no_examples argsort (ks : list Z) :
  forall s, y_training s = [] -> N s = 0 ->
    exists s',
      for_each (error_for_K argsort) ks s = Ok s' /\
      printed s s' (map (fun k => Row k NaN) ks) /\
      same_data s s' /\ N s' = 0.
Proof.
  induction ks as [|k ks IH]; intros s Hy HN.
  - exists s. simpl. unfold printed, same_data. rewrite app_nil_r. auto.
  - pose proof (error_for_K_run argsort k s) as H.
    rewrite HN in H. cbn [seq mapM] in H.
    destruct H as (s1 & R & (X & Y) & N1 & _ & _ & E & O).
    rewrite Hy in E. cbn in E.
    destruct (IH s1) as (s' & R' & O' & (X' & Y') & N'); [congruence | congruence |].
    exists s'. cbn [for_each]. rewrite R. cbn [bind].
    split; [exact R'|]. unfold printed, same_data in *.
    rewrite O', O, E, X', Y', X, Y, <- app_assoc. auto.
Qed.

(** X9: with no labels at all ([y_training] empty) the cell raises nothing,
    whatever [x_training_selected] holds: no example is classified, each
    error is 0/0, and the cell prints the header and K with nan for each K
    of the sweep. *)
Theorem training_error_cell_no_examples argsort s :
  y_training s = [] ->
  exists s',
    training_error_cell argsort s = Ok s' /\
    printed s s' (Header :: map (fun k => Row k NaN) (arange 1 34 2)) /\
    same_data s s' /\ N s' = 0.
Proof.
  intros Hy. unfold training_error_cell.
  set (s0 := print Header (set_N (length (y_training s)) s)).
  destruct (for_each_error_no_examples argsort (arange 1 34 2) s0) as (s' & R & O & D & N').
  - exact Hy.
  - simpl. rewrite Hy. reflexivity.
  - exists s'. split; [exact R|]. unfold printed in *.
    rewrite O. simpl stdout. rewrite <- app_assoc. auto.
Qed.

Lemma training_error_cell_no_examples_witness :
  exists s',
    training_error_cell insertion_argsort (loaded three_x []) = Ok s' /\
    printed (loaded three_x []) s' (Header :: map (fun k => Row k NaN) (arange 1 34 2)) /\
    same_data (loaded three_x []) s' /\ N s' = 0.
Proof.
  apply (training_error_cell_no_examples insertion_argsort (loaded three_x [])).
  reflexivity.
Defined.

(** * The plot of the nearest neighbours *)

Lemma mask_rows_labels (x : ndarray2) (y : list Z) (f : Z -> bool) :
  nrows x = length y ->
  mask_rows x (map f y)
  = Ok (mk_ndarray2 (ncols x)
          (map fst (filter (fun p => f (snd p)) (combine (rows x) y)))).
Proof.
  intros Hn. unfold mask_rows. rewrite length_map, Hn, Nat.eqb_refl.
  do 2 f_equal. clear Hn. generalize (rows x). intros l. revert y.
  induction l as [|r l IH]; intros [|a y]; simpl; try reflexivity.
  destruct (f a); simpl; rewrite IH; reflexivity.
Qed.

Lemma column_in_range (x : ndarray2) (j : nat) :
  j < ncols x -> column x j = Ok (map (fun r => nth j r 0%float) (rows x)).
Proof.
  intros H. unfold column. apply Nat.ltb_lt in H. rewrite H. reflexivity.
Qed.

Lemma skipn_nth_cons {A : Type} (l : list A) (a : nat) (dflt : A) :
  a < length l -> skipn a l = nth a l dflt :: skipn (S a) l.
Proof.
  revert a. induction l as [|b l IH]; intros [|a] H; simpl in *; try lia.
  - reflexivity.
  - apply IH. lia.
Qed.

Section PlotFacts.

Variable argsort : list float -> list nat.
Variable x : ndarray2.
Variable x_q : list float.

Hypothesis x_rectangular : rectangular x.
Hypothesis x_two_columns : 2 <= ncols x.
Hypothesis x_q_dimension : length x_q = ncols x.

Lemma plot_neighbour_segment (i : list nat) (k : nat) (calls : list pl_call) :
  k < length i -> nth k i 0 < nrows x ->
  plot_neighbour x x_q i k calls = (calls ++ [segment x x_q (nth k i 0)], Ok tt).
Proof.
  intros Hk Hj. unfold plot_neighbour, bind_plotting, lift, call.
  rewrite (getitem_nth i k 0 Hk).
  destruct (rectangular_row x (nth k i 0) x_rectangular Hj) as (G & L).
  rewrite G. unfold vstack. rewrite L, x_q_dimension, Nat.eqb_refl.
  rewrite !column_in_range by (simpl; lia).
  reflexivity.
Qed.

Lemma plot_neighbour_beyond (i : list nat) (k : nat) (calls : list pl_call) :
  length i <= k -> plot_neighbour x x_q i k calls = (calls, Raise IndexError).
Proof.
  intros Hk. unfold plot_neighbour, bind_plotting, lift, getitem.
  rewrite (proj2 (nth_error_None i k) Hk). reflexivity.
Qed.

(** The loop over [k = a, ..., a + m - 1]: a line for each index of the sort
    it reaches, and IndexError when it goes past the last. *)
Lemma for_plotting_neighbours (i : list nat) (m : nat) :
  Forall (fun j => j < nrows x) i ->
  forall (a : nat) (calls : list pl_call),
    a <= length i ->
    for_plotting (plot_neighbour x x_q i) (seq a m) calls
    = (calls ++ map (segment x x_q) (firstn m (skipn a i)),
       if a + m <=? length i then Ok tt else Raise IndexError).
Proof.
  intros Hi. induction m as [|m IH]; intros a calls Hle.
  - simpl. rewrite app_nil_r.
    replace (a + 0 <=? length i) with true by (symmetry; apply Nat.leb_le; lia).
    reflexivity.
  - cbn [seq for_plotting]. unfold bind_plotting at 1.
    destruct (Nat.lt_ge_cases a (length i)) as [Ha|Ha].
    + rewrite plot_neighbour_segment;
        [|exact Ha | rewrite Forall_forall in Hi; apply Hi, nth_In, Ha].
      rewrite IH by lia. rewrite (skipn_nth_cons i a 0 Ha). cbn [firstn map].
      rewrite <- app_assoc. cbn [app].
      replace (S a + m) with (a + S m) by lia. reflexivity.
    + rewrite plot_neighbour_beyond by exact Ha.
      rewrite skipn_all2 by exact Ha. rewrite firstn_nil. cbn [map].
      rewrite app_nil_r.
      destruct (a + S m <=? length i) eqn:E; [apply Nat.leb_le in E; lia|].
      reflexivity.
Qed.

Hypothesis argsort_perm : argsort_permutes argsort.

(** The whole call on a dataset with as many labels as rows. *)
Lemma scatter_plot_two_features_only_run (y : list Z) (f1 f2 : string) (k : Z)
  (calls : list pl_call) :
  nrows x = length y ->
  exists d,
    distances x x_q = Ok d /\ length (argsort d) = nrows x /\
    scatter_plot_two_features_only argsort x y f1 f2 x_q k calls
    = if (k <=? Z.of_nat (nrows x))%Z then
        (calls ++ plot_head x y f1 f2 x_q
           ++ map (segment x x_q) (firstn (Z.to_nat k) (argsort d))
           ++ plot_tail f1 f2, Ok tt)
      else
        (calls ++ plot_head x y f1 f2 x_q ++ map (segment x x_q) (argsort d),
         Raise IndexError).
Proof.
  intros Hn.
  destruct (distances_same_dim x x_q x_q_dimension) as (d & Hd).
  pose proof (permutes_length argsort d argsort_perm) as Hl.
  rewrite (distances_length _ _ _ Hd) in Hl.
  exists d. split; [exact Hd|]. split; [exact Hl|].
  unfold scatter_plot_two_features_only.
  unfold bind_plotting at 1. unfold lift at 1.
  rewrite (mask_rows_labels x y _ Hn).
  unfold bind_plotting at 1. unfold lift at 1.
  rewrite (mask_rows_labels x y _ Hn).
  unfold bind_plotting at 1. unfold call at 1.
  unfold bind_plotting at 1. unfold lift at 1.
  rewrite column_in_range by (simpl; lia).
  unfold bind_plotting at 1. unfold lift at 1.
  rewrite column_in_range by (simpl; lia).
  unfold bind_plotting at 1. unfold call at 1.
  unfold bind_plotting at 1. unfold lift at 1.
  rewrite column_in_range by (simpl; lia).
  unfold bind_plotting at 1. unfold lift at 1.
  rewrite column_in_range by (simpl; lia).
  unfold bind_plotting at 1. unfold call at 1.
  unfold bind_plotting at 1. unfold lift at 1.
  rewrite (getitem_nth x_q 0 0%float) by lia.
  unfold bind_plotting at 1. unfold lift at 1.
  rewrite (getitem_nth x_q 1 0%float) by lia.
  unfold bind_plotting at 1. unfold call at 1.
  unfold bind_plotting at 1. unfold lift at 1.
  rewrite Hd.
  unfold bind_plotting at 1. unfold arange_upto.
  rewrite for_plotting_neighbours
    by (try lia; rewrite <- (distances_length _ _ _ Hd);
        apply permutes_in_range, argsort_perm).
  rewrite skipn_O, Hl. cbn [Nat.add].
  destruct (k <=? Z.of_nat (nrows x))%Z eqn:E.
  - apply Z.leb_le in E.
    replace (Z.to_nat k <=? nrows x) with true by (symmetry; apply Nat.leb_le; lia).
    unfold bind_plotting, call, plot_head, plot_tail. cbn [rows].
    f_equal. rewrite <- !app_assoc. reflexivity.
  - apply Z.leb_gt in E.
    replace (Z.to_nat k <=? nrows x) with false by (symmetry; apply Nat.leb_gt; lia).
    rewrite firstn_all2 by lia.
    unfold plot_head. cbn [rows]. f_equal. rewrite <- !app_assoc. reflexivity.
Qed.

End PlotFacts.

(** X10: on a rectangular dataset of N rows, at least two columns and N
    labels, a query of its dimension and 0 <= K <= N, the plot is made to
    the end and, between the three scatters and the axis labels, draws one
    line from the query to each of the examples whose labels [KNN] counts
    for the same K, nearest first. *)
Theorem plot_draws_the_voters argsort x y f1 f2 xq k calls :
  argsort_permutes argsort ->
  rectangular x -> 2 <= ncols x -> length xq = ncols x ->
  nrows x = length y ->
  (0 <= k <= Z.of_nat (length y))%Z ->
  exists d,
    distances x xq = Ok d /\
    scatter_plot_two_features_only argsort x y f1 f2 xq k calls
    = (calls ++ plot_head x y f1 f2 xq
         ++ map (segment x xq) (slice0 (argsort d) k) ++ plot_tail f1 f2, Ok tt) /\
    neighbours argsort y d k = Ok (map (fun j => nth j y 0%Z) (slice0 (argsort d) k)) /\
    length (slice0 (argsort d) k) = Z.to_nat k.
Proof.
  intros Hp Hr H2 Hdim Hn Hk.
  destruct (scatter_plot_two_features_only_run argsort x xq Hr H2 Hdim Hp y f1 f2 k calls Hn)
    as (d & Hd & Hl & R).
  exists d. split; [exact Hd|].
  replace (k <=? Z.of_nat (nrows x))%Z with true in R
    by (symmetry; apply Z.leb_le; lia).
  assert (Hs : slice0 (argsort d) k = firstn (Z.to_nat k) (argsort d)).
  { unfold slice0, slice_stop. destruct (k <? 0)%Z eqn:E; [lia|].
    f_equal. lia. }
  rewrite Hs. split; [exact R|]. split.
  - rewrite <- Hs. apply neighbours_nth, slice_in_range; [exact Hp|].
    rewrite (distances_length _ _ _ Hd). exact Hn.
  - rewrite <- Hs. apply slice0_length. lia.
Qed.

Lemma plot_draws_the_voters_witness :
  exists d,
    distances three_x [1; 1]%float = Ok d /\
    scatter_plot_two_features_only insertion_argsort three_x three_y "Light" "CO2"
      [1; 1]%float 2 []
    = ([] ++ plot_head three_x three_y "Light" "CO2" [1; 1]%float
         ++ map (segment three_x [1; 1]%float) (slice0 (insertion_argsort d) 2)
         ++ plot_tail "Light" "CO2", Ok tt) /\
    neighbours insertion_argsort three_y d 2
    = Ok (map (fun j => nth j three_y 0%Z) (slice0 (insertion_argsort d) 2)) /\
    length (slice0 (insertion_argsort d) 2) = Z.to_nat 2.
Proof.
  apply (plot_draws_the_voters insertion_argsort three_x three_y "Light" "CO2"
           [1; 1]%float 2 []).
  - apply insertion_argsort_permutes.
  - repeat constructor.
  - simpl. lia.
  - reflexivity.
  - reflexivity.
  - simpl. lia.
Defined.

(** X11: on the same kind of dataset, K > N makes the plot raise IndexError:
    it has then drawn the three scatters and a line to every one of the N
    examples, and it never sets the labels nor saves the figure; [KNN], for
    the same arguments, returns a label when the dataset is not empty. *)
Theorem plot_K_beyond_dataset argsort x y f1 f2 xq k calls :
  argsort_permutes argsort ->
  rectangular x -> 2 <= ncols x -> length xq = ncols x ->
  nrows x = length y ->
  (Z.of_nat (length y) < k)%Z ->
  exists d,
    distances x xq = Ok d /\
    scatter_plot_two_features_only argsort x y f1 f2 xq k calls
    = (calls ++ plot_head x y f1 f2 xq ++ map (segment x xq) (argsort d),
       Raise IndexError) /\
    length (argsort d) = length y /\
    (y <> [] -> exists l, KNN argsort x y xq k = Ok l).
Proof.
  intros Hp Hr H2 Hdim Hn Hk.
  destruct (scatter_plot_two_features_only_run argsort x xq Hr H2 Hdim Hp y f1 f2 k calls Hn)
    as (d & Hd & Hl & R).
  exists d. split; [exact Hd|].
  replace (k <=? Z.of_nat (nrows x))%Z with false in R
    by (symmetry; apply Z.leb_gt; lia).
  split; [exact R|]. split; [rewrite Hl; exact Hn|].
  intros Hy.
  destruct (KNN_returns argsort Hp x y xq k Hdim Hn Hy) as (d' & _ & _ & _ & HK).
  eexists. exact HK.
Qed.

Lemma plot_K_beyond_dataset_witness :
  exists d,
    distances three_x [1; 1]%float = Ok d /\
    scatter_plot_two_features_only insertion_argsort three_x three_y "Light" "CO2"
      [1; 1]%float 111 []
    = ([] ++ plot_head three_x three_y "Light" "CO2" [1; 1]%float
         ++ map (segment three_x [1; 1]%float) (insertion_argsort d),
       Raise IndexError) /\
    length (insertion_argsort d) = length three_y /\
    exists l, KNN insertion_argsort three_x three_y [1; 1]%float 111 = Ok l.
Proof.
  destruct (plot_K_beyond_dataset insertion_argsort three_x three_y "Light" "CO2"
              [1; 1]%float 111 []) as (d & H1 & H2 & H3 & H4).
  - apply insertion_argsort_permutes.
  - repeat constructor.
  - simpl. lia.
  - reflexivity.
  - reflexivity.
  - simpl. lia.
  - exists d. split; [exact H1|]. split; [exact H2|]. split; [exact H3|].
    apply H4. discriminate.
Defined.

(** X12: on the same kind of dataset, a negative K makes the plot draw no
    line to any neighbour (np.arange(K) is empty), although for -N < K < 0
    [KNN] counts the labels of the N + K nearest examples (the slice
    [i[0:K]] is not empty). *)
Theorem plot_negative_K argsort x y f1 f2 xq k calls :
  argsort_permutes argsort ->
  rectangular x -> 2 <= ncols x -> length xq = ncols x ->
  nrows x = length y ->
  (k < 0)%Z ->
  exists d,
    distances x xq = Ok d /\
    scatter_plot_two_features_only argsort x y f1 f2 xq k calls
    = (calls ++ plot_head x y f1 f2 xq ++ plot_tail f1 f2, Ok tt) /\
    exists nb,
      neighbours argsort y d k = Ok nb /\
      length nb = Z.to_nat (Z.of_nat (length y) + k).
Proof.
  intros Hp Hr H2 Hdim Hn Hk.
  destruct (scatter_plot_two_features_only_run argsort x xq Hr H2 Hdim Hp y f1 f2 k calls Hn)
    as (d & Hd & Hl & R).
  exists d. split; [exact Hd|].
  replace (k <=? Z.of_nat (nrows x))%Z with true in R
    by (symmetry; apply Z.leb_le; lia).
  replace (Z.to_nat k) with 0 in R by lia. cbn [firstn map app] in R.
  split; [exact R|].
  eexists. split.
  - apply neighbours_nth, slice_in_range; [exact Hp|].
    rewrite (distances_length _ _ _ Hd). exact Hn.
  - rewrite length_map. unfold slice0, slice_stop.
    replace (k <? 0)%Z with true by (symmetry; apply Z.ltb_lt; exact Hk).
    rewrite length_firstn, Hl, Hn. lia.
Qed.

Lemma plot_negative_K_witness :
  exists d,
    distances three_x [1; 1]%float = Ok d /\
    scatter_plot_two_features_only insertion_argsort three_x three_y "Light" "CO2"
      [1; 1]%float (-1) []
    = ([] ++ plot_head three_x three_y "Light" "CO2" [1; 1]%float
         ++ plot_tail "Light" "CO2", Ok tt) /\
    exists nb,
      neighbours insertion_argsort three_y d (-1) = Ok nb /\
      length nb = Z.to_nat (Z.of_nat (length three_y) + -1).
Proof.
  apply (plot_negative_K insertion_argsort three_x three_y "Light" "CO2"
           [1; 1]%float (-1) []).
  - apply insertion_argsort_permutes.
  - repeat constructor.
  - simpl. lia.
  - reflexivity.
  - reflexivity.
  - lia.
Defined.

(** * Cutting the features out of the data *)

Lemma slice0_minus_one_length {A : Type} (l : list A) :
  length (slice0 l (-1)) = length l - 1.
Proof.
  unfold slice0, slice_stop. cbn [Z.ltb Z.compare]. rewrite length_firstn. lia.
Qed.

Lemma slice0_minus_one_nth {A : Type} (l : list A) (c : nat) (dflt : A) :
  c < length l - 1 -> nth c (slice0 l (-1)) dflt = nth c l dflt.
Proof.
  intros H. unfold slice0, slice_stop. cbn [Z.ltb Z.compare].
  rewrite nth_firstn.
  replace (c <? Z.to_nat (Z.of_nat (length l) + -1)) with true
    by (symmetry; apply Nat.ltb_lt; lia).
  reflexivity.
Qed.

(** X13: cutting Light and CO2 out of a rectangular array [training_data]
    whose last column holds the labels: with at least five columns the
    result is a rectangular array of two columns and as many rows, whose
    row [i] holds the entries 2 and 3 of row [i] of the data; with fewer
    than five columns the selection raises IndexError. *)
Theorem select_light_and_co2_shape (training_data : ndarray2) :
  rectangular training_data ->
  (5 <= ncols training_data ->
   exists x,
     select_light_and_co2 training_data = Ok x /\
     ncols x = 2 /\ rectangular x /\ nrows x = nrows training_data /\
     forall i, i < nrows training_data ->
       nth i (rows x) []
       = [nth 2 (nth i (rows training_data) []) 0%float;
          nth 3 (nth i (rows training_data) []) 0%float]) /\
  (ncols training_data < 5 -> select_light_and_co2 training_data = Raise IndexError).
Proof.
  intros Hr. unfold select_light_and_co2, select_columns, drop_last_column.
  cbn [ncols rows forallb]. unfold slice_stop. cbn [Z.ltb Z.compare].
  split.
  - intros H5.
    replace (2 <? Z.to_nat (Z.of_nat (ncols training_data) + -1)) with true
      by (symmetry; apply Nat.ltb_lt; lia).
    replace (3 <? Z.to_nat (Z.of_nat (ncols training_data) + -1)) with true
      by (symmetry; apply Nat.ltb_lt; lia).
    cbn [andb]. eexists. split; [reflexivity|].
    split; [reflexivity|]. split; [|split].
    + unfold rectangular. cbn [rows ncols]. rewrite map_map.
      apply Forall_map, Forall_forall. reflexivity.
    + unfold nrows. cbn [rows]. rewrite !length_map. reflexivity.
    + intros i Hi. cbn [rows]. rewrite map_map.
      rewrite (nth_indep _ [] (map (fun c => nth c (slice0 [] (-1)) 0%float) [2; 3]))
        by (rewrite length_map; exact Hi).
      rewrite (map_nth (fun r => map (fun c => nth c (slice0 r (-1)) 0%float) [2; 3])).
      cbn [map].
      assert (L : length (nth i (rows training_data) []) = ncols training_data).
      { unfold rectangular in Hr. rewrite Forall_forall in Hr.
        apply Hr, nth_In, Hi. }
      rewrite !slice0_minus_one_nth by (rewrite L; lia). reflexivity.
  - intros H5.
    destruct (2 <? Z.to_nat (Z.of_nat (ncols training_data) + -1)) eqn:E2;
      [|reflexivity].
    replace (3 <? Z.to_nat (Z.of_nat (ncols training_data) + -1)) with false
      by (symmetry; apply Nat.ltb_ge; lia).
    reflexivity.
Qed.

Lemma select_light_and_co2_shape_witness :
  (exists x,
     select_light_and_co2
       (mk_ndarray2 6 [[23; 27; 426; 721; 0; 1]; [23; 27; 0; 700; 0; 0]]%float) = Ok x /\
     ncols x = 2 /\ rectangular x /\ nrows x = 2 /\
     forall i, i < 2 ->
       nth i (rows x) []
       = [nth 2 (nth i [[23; 27; 426; 721; 0; 1]; [23; 27; 0; 700; 0; 0]]%float []) 0%float;
          nth 3 (nth i [[23; 27; 426; 721; 0; 1]; [23; 27; 0; 700; 0; 0]]%float []) 0%float]) /\
  select_light_and_co2 two_x = Raise IndexError.
Proof.
  split.
  - apply (select_light_and_co2_shape
             (mk_ndarray2 6 [[23; 27; 426; 721; 0; 1]; [23; 27; 0; 700; 0; 0]]%float)).
    + repeat constructor.
    + simpl. lia.
  - apply (select_light_and_co2_shape two_x).
    + repeat constructor.
    + simpl. lia.
Defined.
